(** * Session-state engine of the language-learning app

    A shallow embedding of [language-learning-app.js]: the retrying
    generation client ([callGeminiAPI]), the deck and its navigation
    ([showNextPhrase], [showPreviousPhrase], [displayCurrentPhrase]), the
    cooldown timer ([startTimer]), speech dispatch ([speakText]) and the
    click handler of the generate button, which ties them together.

    Conventions of the embedding:
    - JavaScript numbers that the program keeps integral are [Z];
      [Date.now()] is a [Z] count of milliseconds.
    - Module-level [let] variables and the DOM properties the handlers read
      or write are fields of one [State] record, threaded explicitly.
    - What a handler does to the outside world (console, network, waits,
      speech) is returned as a list of [Effect]s, oldest first.
    - What the outside world does to a handler (the answers of [fetch], the
      voices of the platform, the clock) is an argument of the handler.
    - A response text is represented by what [JSON.parse] makes of it, at the
      array-of-phrases type the response schema declares. *)

From Stdlib Require Import ZArith String Ascii List Bool Lia.
From Stdlib Require DecimalString.
From stdpp Require Import base list strings gmap.
Import ListNotations.

Local Open Scope Z_scope.

(** ** Values shared by the components *)

(** A thrown JavaScript value: [new Error(message)] has name "Error"; the
    host raises others (TypeError, SyntaxError, network failures). *)
Record Error := { err_name : string; err_message : string }.

Definition new_Error (msg : string) : Error :=
  {| err_name := "Error"; err_message := msg |}.

Definition TypeError (msg : string) : Error :=
  {| err_name := "TypeError"; err_message := msg |}.

(** How a call completes: [return v] or [throw e]. *)
Inductive Completion (A : Type) :=
| Returned (v : A)
| Threw (e : Error).
Arguments Returned {A} v.
Arguments Threw {A} e.

(** One entry of [word_by_word_learning]. *)
Record WordAlignment := {
  original : string;
  transliteration : string;
  translated : string
}.

(** One generated phrase, with the keys of [phraseSchema]. *)
Record Phrase := {
  native : string;
  learning : string;
  native_phonetics : string;
  learning_phonetics : string;
  word_by_word_learning : list WordAlignment
}.

(** A [SpeechSynthesisVoice], of which the program reads [lang] only. *)
Record Voice := { voice_name : string; lang : string }.

(** What a handler does to the outside world. *)
Inductive Effect :=
| ConsoleError (msg : string)
| Fetch (prompt : string)
| Wait (ms : Z)
| SpeechSpeak (text utterance_lang : string) (voice : option Voice).

(** ** The generation client: [callGeminiAPI] *)

Module GenerationClient.

(** [result.candidates[0].content.parts[0].text], by what [JSON.parse]
    does with it. *)
Inductive JsonText :=
| Unparsable (e : Error)
| PhraseArray (ps : list Phrase).

Record Part := { text : JsonText }.
Record Content := { parts : option (list Part) }.
Record Candidate := { content : option Content }.
Record GeminiResult := { candidates : option (list Candidate) }.

(** [await response.json()] *)
Inductive ResponseBody :=
| BodyRejects (e : Error)
| BodyJson (result : GeminiResult).

(** [await fetch(apiUrl, ...)] *)
Inductive FetchOutcome :=
| FetchRejects (e : Error)
| FetchResolves (ok : bool) (statusText : string) (body : ResponseBody).

Definition JSON_parse (t : JsonText) : Error + list Phrase :=
  match t with
  | Unparsable e => inl e
  | PhraseArray ps => inr ps
  end.

Definition format_error : Error :=
  new_Error "API response format is not as expected.".

(** The body of the [try] block, lines 148-166: [inr] is the [return],
    [inl] the value that reaches the [catch]. *)
Definition try_block (o : FetchOutcome) : Error + list Phrase :=
  match o with
  | FetchRejects e => inl e
  | FetchResolves ok statusText body =>
      if negb ok then inl (new_Error ("API response error: " +:+ statusText))
      else
        match body with
        | BodyRejects e => inl e
        | BodyJson result =>
            match candidates result with
            | Some (c0 :: _) =>
                match content c0 with
                | Some ct =>
                    match parts ct with
                    | Some (p0 :: _) => JSON_parse (text p0)
                    | _ => inl format_error
                    end
                | None => inl format_error
                end
            | _ => inl format_error
            end
        end
  end.

Definition maxRetries : Z := 5.

(** How the [while] loop is left. *)
Inductive LoopExit :=
| ByReturn (v : list Phrase)
| ByThrow (e : Error)
| ByCondition.

(** The [while (retries < maxRetries)] loop, lines 146-177. [net] answers
    the successive [fetch] calls, [calls] counts those already made. *)
Fixpoint retry_loop (fuel : nat) (prompt : string)
    (net : nat -> FetchOutcome) (calls : nat) (retries delay : Z)
    : option (LoopExit * list Effect) :=
  match fuel with
  | O => None
  | S fuel' =>
      if retries <? maxRetries then
        match try_block (net calls) with
        | inr json => Some (ByReturn json, [Fetch prompt])
        | inl error =>
            let retries := retries + 1 in
            if retries <? maxRetries then
              match retry_loop fuel' prompt net (S calls) retries (delay * 2) with
              | Some (r, tr) =>
                  Some (r, Fetch prompt :: ConsoleError "API call failed:"
                             :: Wait delay :: tr)
              | None => None
              end
            else
              Some (ByThrow error,
                    [Fetch prompt; ConsoleError "API call failed:"])
        end
      else Some (ByCondition, [])
  end.

(** [callGeminiAPI(prompt, responseSchema)]. The schema only travels in
    the request body and is left out. Five rounds of fuel are enough, and
    the loop is never left by its condition ([retry_loop_exit] below), so
    the last two branches are never taken. *)
Definition callGeminiAPI (prompt : string) (net : nat -> FetchOutcome)
    : Completion (list Phrase) * list Effect :=
  match retry_loop 5 prompt net 0 0 1000 with
  | Some (ByReturn v, tr) => (Returned v, tr)
  | Some (ByThrow e, tr) => (Threw e, tr)
  | Some (ByCondition, tr) => (Threw (TypeError "undefined"), tr)
  | None => (Threw (TypeError "undefined"), [])
  end.

(** The exit of the loop that a completion of the call stands for. *)
Definition as_exit (c : Completion (list Phrase)) : LoopExit :=
  match c with
  | Returned v => ByReturn v
  | Threw e => ByThrow e
  end.

(** Readings of a trace. *)
Definition is_fetch (e : Effect) : bool :=
  match e with Fetch _ => true | _ => false end.

Definition attempts (tr : list Effect) : nat :=
  List.length (List.filter is_fetch tr).

Fixpoint waits (tr : list Effect) : list Z :=
  match tr with
  | [] => []
  | Wait ms :: tr' => ms :: waits tr'
  | _ :: tr' => waits tr'
  end.

(** The schedule in the words of the specification: a failed attempt is
    a request and its logged failure; the waits between consecutive
    attempts are 1000, 2000, 4000 and 8000 ms. *)
Definition backoff : list Z := [1000; 2000; 4000; 8000].

Definition failed_attempt (prompt : string) : list Effect :=
  [Fetch prompt; ConsoleError "API call failed:"].

Definition failed_then_wait (prompt : string) (ms : Z) : list Effect :=
  failed_attempt prompt ++ [Wait ms].

(** [k] failed attempts, each followed by its wait ([k <= 4]). *)
Definition failed_prefix (prompt : string) (k : nat) : list Effect :=
  List.concat (List.map (failed_then_wait prompt) (firstn k backoff)).

Definition attempt_fails (o : FetchOutcome) : bool :=
  match try_block o with inl _ => true | inr _ => false end.

End GenerationClient.

(** ** Configuration *)

Record Language := {
  lang_name : string;
  lang_code : string;
  latin_alphabet : bool
}.

Definition languages : list Language := [
  {| lang_name := "English"; lang_code := "en-US"; latin_alphabet := true |};
  {| lang_name := "Spanish"; lang_code := "es-ES"; latin_alphabet := true |};
  {| lang_name := "French"; lang_code := "fr-FR"; latin_alphabet := true |};
  {| lang_name := "German"; lang_code := "de-DE"; latin_alphabet := true |};
  {| lang_name := "Chinese (Simplified)"; lang_code := "zh-CN"; latin_alphabet := false |};
  {| lang_name := "Japanese"; lang_code := "ja-JP"; latin_alphabet := false |};
  {| lang_name := "Korean"; lang_code := "ko-KR"; latin_alphabet := false |};
  {| lang_name := "Russian"; lang_code := "ru-RU"; latin_alphabet := false |};
  {| lang_name := "Italian"; lang_code := "it-IT"; latin_alphabet := true |};
  {| lang_name := "Portuguese"; lang_code := "pt-BR"; latin_alphabet := true |}
].

(** [languages.find(l => l.code === code)] *)
Definition find_language (code : string) : option Language :=
  List.find (fun l => String.eqb (lang_code l) code) languages.

(** [WAIT_TIME], in seconds. *)
Definition WAIT_TIME : Z := 5 * 60.

(** ** JavaScript helpers *)

(** Truthiness of a string, and of a variable that is [null] or a string. *)
Definition truthy (s : string) : bool := negb (String.eqb s "").

Definition truthy_opt (o : option string) : bool :=
  match o with
  | None => false
  | Some s => truthy s
  end.

(** [a[i]] for a number [i] that is an integer: [undefined] out of range. *)
Definition js_index {A : Type} (a : list A) (i : Z) : option A :=
  if i <? 0 then None else a !! Z.to_nat i.

(** [a.length] *)
Definition js_length {A : Type} (a : list A) : Z := Z.of_nat (List.length a).

(** [s.startsWith(p)] and [s.substring(0, 2)] *)
Definition startsWith (s p : string) : bool := String.prefix p s.
Definition substring_0_2 (s : string) : string := String.substring 0 2 s.

(** [a.join(', ')] *)
Definition join_comma (a : list string) : string := String.concat ", " a.

(** [s.trim()], for the ASCII white space a byte string can hold. *)
Definition is_space (c : ascii) : bool :=
  let n := nat_of_ascii c in
  (Nat.eqb n 32 || (Nat.leb 9 n && Nat.leb n 13))%bool.

Fixpoint trim_start (s : string) : string :=
  match s with
  | String c s' => if is_space c then trim_start s' else s
  | EmptyString => EmptyString
  end.

Fixpoint trim_end (s : string) : string :=
  match s with
  | String c s' =>
      match trim_end s' with
      | EmptyString => if is_space c then EmptyString else String c EmptyString
      | t => String c t
      end
  | EmptyString => EmptyString
  end.

Definition trim (s : string) : string := trim_end (trim_start s).

(** The double-quote character, for the texts that contain it. *)
Definition dq : string := String (ascii_of_nat 34) EmptyString.

Definition quoted (s : string) : string := dq +:+ s +:+ dq.

(** ** The state of a session *)

(** [element.style.display] *)
Inductive Display := DisplayUnset | DisplayNone | DisplayBlock | DisplayFlex.

(** The form controls the handlers read. *)
Record Form := {
  nativeLangSelect_value : string;
  learningLangSelect_value : string;
  topicSelect_value : string;
  customTopicInput_value : string
}.

(** What [displayCurrentPhrase] writes: the texts of the phrase, one tab per
    aligned word, the counter [i+1/n] and the navigation buttons. *)
Record Card := {
  nativePhraseEl : string;
  learningPhraseTextEl : string;
  nativePhoneticsEl : string;
  learningPhoneticsEl : string;
  wordByWordContainer : list WordAlignment;
  phraseCounter : Z * Z;
  prevBtn_disabled : bool;
  nextBtn_disabled : bool
}.

(** The other DOM properties the handlers write. The bubble's opacity and
    text, the headings and the one-shot [setTimeout] callbacks that only
    restyle the bubble are visual and left out. *)
Record Page := {
  generateBtn_disabled : bool;
  generateBtn_textContent : string;
  outputContainer_display : Display;
  statusMessage_display : Display;
  errorMessage_textContent : string;
  errorMessage_display : Display;
  ttsMessage_textContent : string;
  ttsMessage_display : Display;
  timerBubble_display : Display;
  card : Card
}.

(** The host's side of the timers and of the voice catalog: the live
    [setInterval] callbacks of [startTimer], each with the [endTime] its
    closure captured, the next handle [setInterval] will return, and whether
    [speechSynthesis.onvoiceschanged] has been set by [loadVoices]. *)
Record Host := {
  intervals : list (nat * Z);
  next_handle : nat;
  onvoiceschanged : bool
}.

Record State := {
  phrasesData : list Phrase;
  currentPhraseIndex : Z;
  voices : list Voice;
  learningLangCode : option string;
  timerInterval : option nat;
  form : Form;
  page : Page;
  host : Host
}.

Definition set_phrasesData (v : list Phrase) (s : State) : State :=
  {| phrasesData := v; currentPhraseIndex := currentPhraseIndex s;
     voices := voices s; learningLangCode := learningLangCode s;
     timerInterval := timerInterval s; form := form s; page := page s;
     host := host s |}.

Definition set_currentPhraseIndex (v : Z) (s : State) : State :=
  {| phrasesData := phrasesData s; currentPhraseIndex := v;
     voices := voices s; learningLangCode := learningLangCode s;
     timerInterval := timerInterval s; form := form s; page := page s;
     host := host s |}.

Definition set_voices (v : list Voice) (s : State) : State :=
  {| phrasesData := phrasesData s; currentPhraseIndex := currentPhraseIndex s;
     voices := v; learningLangCode := learningLangCode s;
     timerInterval := timerInterval s; form := form s; page := page s;
     host := host s |}.

Definition set_learningLangCode (v : option string) (s : State) : State :=
  {| phrasesData := phrasesData s; currentPhraseIndex := currentPhraseIndex s;
     voices := voices s; learningLangCode := v;
     timerInterval := timerInterval s; form := form s; page := page s;
     host := host s |}.

Definition set_timerInterval (v : option nat) (s : State) : State :=
  {| phrasesData := phrasesData s; currentPhraseIndex := currentPhraseIndex s;
     voices := voices s; learningLangCode := learningLangCode s;
     timerInterval := v; form := form s; page := page s; host := host s |}.

Definition set_form (v : Form) (s : State) : State :=
  {| phrasesData := phrasesData s; currentPhraseIndex := currentPhraseIndex s;
     voices := voices s; learningLangCode := learningLangCode s;
     timerInterval := timerInterval s; form := v; page := page s;
     host := host s |}.

Definition set_page (v : Page) (s : State) : State :=
  {| phrasesData := phrasesData s; currentPhraseIndex := currentPhraseIndex s;
     voices := voices s; learningLangCode := learningLangCode s;
     timerInterval := timerInterval s; form := form s; page := v;
     host := host s |}.

Definition set_host (v : Host) (s : State) : State :=
  {| phrasesData := phrasesData s; currentPhraseIndex := currentPhraseIndex s;
     voices := voices s; learningLangCode := learningLangCode s;
     timerInterval := timerInterval s; form := form s; page := page s;
     host := v |}.

(** Page writes, one per assignment form of the source. *)
Definition with_generateBtn (disabled : bool) (text : string) (p : Page) : Page :=
  {| generateBtn_disabled := disabled; generateBtn_textContent := text;
     outputContainer_display := outputContainer_display p;
     statusMessage_display := statusMessage_display p;
     errorMessage_textContent := errorMessage_textContent p;
     errorMessage_display := errorMessage_display p;
     ttsMessage_textContent := ttsMessage_textContent p;
     ttsMessage_display := ttsMessage_display p;
     timerBubble_display := timerBubble_display p; card := card p |}.

Definition with_outputContainer (d : Display) (p : Page) : Page :=
  {| generateBtn_disabled := generateBtn_disabled p;
     generateBtn_textContent := generateBtn_textContent p;
     outputContainer_display := d;
     statusMessage_display := statusMessage_display p;
     errorMessage_textContent := errorMessage_textContent p;
     errorMessage_display := errorMessage_display p;
     ttsMessage_textContent := ttsMessage_textContent p;
     ttsMessage_display := ttsMessage_display p;
     timerBubble_display := timerBubble_display p; card := card p |}.

Definition with_statusMessage (d : Display) (p : Page) : Page :=
  {| generateBtn_disabled := generateBtn_disabled p;
     generateBtn_textContent := generateBtn_textContent p;
     outputContainer_display := outputContainer_display p;
     statusMessage_display := d;
     errorMessage_textContent := errorMessage_textContent p;
     errorMessage_display := errorMessage_display p;
     ttsMessage_textContent := ttsMessage_textContent p;
     ttsMessage_display := ttsMessage_display p;
     timerBubble_display := timerBubble_display p; card := card p |}.

Definition with_errorMessage (text : string) (d : Display) (p : Page) : Page :=
  {| generateBtn_disabled := generateBtn_disabled p;
     generateBtn_textContent := generateBtn_textContent p;
     outputContainer_display := outputContainer_display p;
     statusMessage_display := statusMessage_display p;
     errorMessage_textContent := text;
     errorMessage_display := d;
     ttsMessage_textContent := ttsMessage_textContent p;
     ttsMessage_display := ttsMessage_display p;
     timerBubble_display := timerBubble_display p; card := card p |}.

Definition with_ttsMessage (text : string) (d : Display) (p : Page) : Page :=
  {| generateBtn_disabled := generateBtn_disabled p;
     generateBtn_textContent := generateBtn_textContent p;
     outputContainer_display := outputContainer_display p;
     statusMessage_display := statusMessage_display p;
     errorMessage_textContent := errorMessage_textContent p;
     errorMessage_display := errorMessage_display p;
     ttsMessage_textContent := text;
     ttsMessage_display := d;
     timerBubble_display := timerBubble_display p; card := card p |}.

Definition with_timerBubble (d : Display) (p : Page) : Page :=
  {| generateBtn_disabled := generateBtn_disabled p;
     generateBtn_textContent := generateBtn_textContent p;
     outputContainer_display := outputContainer_display p;
     statusMessage_display := statusMessage_display p;
     errorMessage_textContent := errorMessage_textContent p;
     errorMessage_display := errorMessage_display p;
     ttsMessage_textContent := ttsMessage_textContent p;
     ttsMessage_display := ttsMessage_display p;
     timerBubble_display := d; card := card p |}.

Definition with_card (c : Card) (p : Page) : Page :=
  {| generateBtn_disabled := generateBtn_disabled p;
     generateBtn_textContent := generateBtn_textContent p;
     outputContainer_display := outputContainer_display p;
     statusMessage_display := statusMessage_display p;
     errorMessage_textContent := errorMessage_textContent p;
     errorMessage_display := errorMessage_display p;
     ttsMessage_textContent := ttsMessage_textContent p;
     ttsMessage_display := ttsMessage_display p;
     timerBubble_display := timerBubble_display p; card := c |}.

Definition on_page (f : Page -> Page) (s : State) : State :=
  set_page (f (page s)) s.

Definition blank_card : Card :=
  {| nativePhraseEl := ""; learningPhraseTextEl := "";
     nativePhoneticsEl := ""; learningPhoneticsEl := "";
     wordByWordContainer := []; phraseCounter := (0, 0);
     prevBtn_disabled := false; nextBtn_disabled := false |}.

Definition blank_page : Page :=
  {| generateBtn_disabled := false; generateBtn_textContent := "";
     outputContainer_display := DisplayUnset;
     statusMessage_display := DisplayUnset;
     errorMessage_textContent := ""; errorMessage_display := DisplayUnset;
     ttsMessage_textContent := ""; ttsMessage_display := DisplayUnset;
     timerBubble_display := DisplayUnset; card := blank_card |}.

(** The state when the script has run, lines 46-50, for the form the page
    was loaded with. *)
Definition initial_state (f : Form) : State :=
  {| phrasesData := []; currentPhraseIndex := 0; voices := [];
     learningLangCode := None; timerInterval := None; form := f;
     page := blank_page;
     host := {| intervals := []; next_handle := 1; onvoiceschanged := false |} |}.

(** ** The deck: rendering and navigation *)

Module Deck.

(** Lines 186-192: the two texts are written, the transliterations and
    the word tabs cleared. *)
Definition show_texts (currentPhrase : Phrase) (c : Card) : Card :=
  {| nativePhraseEl := native currentPhrase;
     learningPhraseTextEl := learning currentPhrase;
     nativePhoneticsEl := "";
     learningPhoneticsEl := "";
     wordByWordContainer := [];
     phraseCounter := phraseCounter c;
     prevBtn_disabled := prevBtn_disabled c;
     nextBtn_disabled := nextBtn_disabled c |}.

(** Lines 199-201. *)
Definition show_native_phonetics (currentPhrase : Phrase)
    (nativeLang : Language) (c : Card) : Card :=
  if (negb (latin_alphabet nativeLang)
      && truthy (native_phonetics currentPhrase))%bool
  then
    {| nativePhraseEl := nativePhraseEl c;
       learningPhraseTextEl := learningPhraseTextEl c;
       nativePhoneticsEl := native_phonetics currentPhrase;
       learningPhoneticsEl := learningPhoneticsEl c;
       wordByWordContainer := wordByWordContainer c;
       phraseCounter := phraseCounter c;
       prevBtn_disabled := prevBtn_disabled c;
       nextBtn_disabled := nextBtn_disabled c |}
  else c.

(** Lines 202-204. *)
Definition show_learning_phonetics (currentPhrase : Phrase)
    (learningLang : Language) (c : Card) : Card :=
  if (negb (latin_alphabet learningLang)
      && truthy (learning_phonetics currentPhrase))%bool
  then
    {| nativePhraseEl := nativePhraseEl c;
       learningPhraseTextEl := learningPhraseTextEl c;
       nativePhoneticsEl := nativePhoneticsEl c;
       learningPhoneticsEl := learning_phonetics currentPhrase;
       wordByWordContainer := wordByWordContainer c;
       phraseCounter := phraseCounter c;
       prevBtn_disabled := prevBtn_disabled c;
       nextBtn_disabled := nextBtn_disabled c |}
  else c.

(** Lines 207-244: a tab per aligned word, the counter [index+1/total]
    and the navigation buttons, disabled at the two ends. *)
Definition show_words_and_position (currentPhrase : Phrase)
    (index total : Z) (c : Card) : Card :=
  {| nativePhraseEl := nativePhraseEl c;
     learningPhraseTextEl := learningPhraseTextEl c;
     nativePhoneticsEl := nativePhoneticsEl c;
     learningPhoneticsEl := learningPhoneticsEl c;
     wordByWordContainer := word_by_word_learning currentPhrase;
     phraseCounter := (index + 1, total);
     prevBtn_disabled := index =? 0;
     nextBtn_disabled := index =? total - 1 |}.

Definition on_card (f : Card -> Card) (s : State) : State :=
  on_page (fun p => with_card (f (card p)) p) s.

(** [displayCurrentPhrase()]: the state it leaves and the exception it
    raises, if any: reading a property of [undefined] is a TypeError, and
    what was written before it stays written. *)
Definition displayCurrentPhrase (s : State) : State * option Error :=
  if js_length (phrasesData s) =? 0 then (s, None)
  else
    match js_index (phrasesData s) (currentPhraseIndex s) with
    | None => (s, Some (TypeError "currentPhrase is undefined"))
    | Some currentPhrase =>
        let s := on_card (show_texts currentPhrase) s in
        match find_language (nativeLangSelect_value (form s)) with
        | None => (s, Some (TypeError "nativeLang is undefined"))
        | Some nativeLang =>
            let s := on_card (show_native_phonetics currentPhrase nativeLang) s in
            match find_language (learningLangSelect_value (form s)) with
            | None => (s, Some (TypeError "learningLang is undefined"))
            | Some learningLang =>
                let s := on_card (show_learning_phonetics currentPhrase
                                    learningLang) s in
                (on_card (show_words_and_position currentPhrase
                            (currentPhraseIndex s)
                            (js_length (phrasesData s))) s,
                 None)
            end
        end
    end.

(** [showNextPhrase()] *)
Definition showNextPhrase (s : State) : State * option Error :=
  if currentPhraseIndex s <? js_length (phrasesData s) - 1 then
    displayCurrentPhrase (set_currentPhraseIndex (currentPhraseIndex s + 1) s)
  else (s, None).

(** [showPreviousPhrase()] *)
Definition showPreviousPhrase (s : State) : State * option Error :=
  if currentPhraseIndex s >? 0 then
    displayCurrentPhrase (set_currentPhraseIndex (currentPhraseIndex s - 1) s)
  else (s, None).

(** The phrase under the cursor, as the click listener of the learning
    phrase reads it: [phrasesData[currentPhraseIndex]]. *)
Definition current (s : State) : option Phrase :=
  js_index (phrasesData s) (currentPhraseIndex s).

(** [0 <= currentIndex < phrases.length] whenever the deck is not empty. *)
Definition invariant (s : State) : Prop :=
  phrasesData s <> [] ->
  0 <= currentPhraseIndex s < js_length (phrasesData s).

(** [n] calls of an operation, exceptions dropped. *)
Definition repeat_op (op : State -> State * option Error) (n : nat)
    (s : State) : State :=
  Nat.iter n (fun s' => fst (op s')) s.

End Deck.

(** ** The cooldown timer *)

Module Cooldown.

(** [setInterval(callback, 1000)], with the [endTime] of the closure. *)
Definition setInterval (endTime : Z) (s : State) : nat * State :=
  let h := next_handle (host s) in
  (h, set_host {| intervals := intervals (host s) ++ [(h, endTime)];
                  next_handle := S h;
                  onvoiceschanged := onvoiceschanged (host s) |} s).

(** [clearInterval(id)]; clearing [null] or a dead handle does nothing. *)
Definition clearInterval (id : option nat) (s : State) : State :=
  match id with
  | None => s
  | Some h =>
      set_host {| intervals :=
                    List.filter (fun x => negb (Nat.eqb (fst x) h))
                      (intervals (host s));
                  next_handle := next_handle (host s);
                  onvoiceschanged := onvoiceschanged (host s) |} s
  end.

(** [startTimer()], called when [Date.now()] is [now]. *)
Definition startTimer (now : Z) (s : State) : State :=
  let endTime := now + WAIT_TIME * 1000 in
  let s := on_page (with_timerBubble DisplayBlock) s in
  let '(h, s) := setInterval endTime s in
  set_timerInterval (Some h) s.

(** [Math.floor((endTime - Date.now()) / 1000)] *)
Definition timeLeft (endTime now : Z) : Z := (endTime - now) / 1000.

(** Whether a run of the callback takes the expiry branch. *)
Definition expired (endTime now : Z) : bool := timeLeft endTime now <=? 0.

(** The callback of the interval, lines 271-287, when [Date.now()] is
    [now]. Its expiry branch clears the interval the variable
    [timerInterval] holds at that moment and enables the button. *)
Definition interval_callback (endTime now : Z) (s : State) : State :=
  if expired endTime now then
    let s := clearInterval (timerInterval s) s in
    on_page (with_generateBtn false "Generate New Phrases") s
  else s.

(** The [endTime] of a live interval. *)
Definition live (h : nat) (s : State) : option Z :=
  snd <$> List.find (fun x => Nat.eqb (fst x) h) (intervals (host s)).

(** The host runs the callback of interval [h], if it is live. *)
Definition fire (h : nat) (now : Z) (s : State) : State :=
  match live h s with
  | Some endTime => interval_callback endTime now s
  | None => s
  end.

(** Whether that run is an expiry notification. *)
Definition notifies (h : nat) (now : Z) (s : State) : bool :=
  match live h s with
  | Some endTime => expired endTime now
  | None => false
  end.

(** The host runs interval [h] at each of the instants [ticks] in turn:
    the final state and the number of expiry notifications. *)
Fixpoint fire_all (h : nat) (ticks : list Z) (s : State) : State * nat :=
  match ticks with
  | [] => (s, O)
  | now :: ticks' =>
      let n := if notifies h now s then 1%nat else 0%nat in
      let '(s', m) := fire_all h ticks' (fire h now s) in
      (s', (n + m)%nat)
  end.

End Cooldown.

(** ** Speech dispatch *)

Module Speech.

(** What the platform offers when a handler runs: whether
    [window.speechSynthesis] exists, what [getVoices()] returns, and the
    exception [speechSynthesis.speak] raises, if it raises one. *)
Record Platform := {
  has_speechSynthesis : bool;
  getVoices : list Voice;
  speak_throws : option Error
}.

(** [loadVoices()] *)
Definition loadVoices (pf : Platform) (s : State) : State :=
  let s := set_voices (getVoices pf) s in
  if js_length (voices s) =? 0 then
    set_host {| intervals := intervals (host s);
                next_handle := next_handle (host s);
                onvoiceschanged := true |} s
  else s.

(** The handler [loadVoices] installs on [onvoiceschanged]. *)
Definition voiceschanged (catalog : list Voice) (s : State) : State :=
  if onvoiceschanged (host s) then set_voices catalog s else s.

(** The predicate of [voices.find], line 103. *)
Definition matches (code : string) (v : Voice) : bool :=
  (String.eqb (lang v) code || startsWith (lang v) (substring_0_2 code))%bool.

Definition find_voice (code : string) (vs : list Voice) : option Voice :=
  List.find (matches code) vs.

(** [speakText(text)] *)
Definition speakText (pf : Platform) (text : string) (s : State)
    : State * list Effect :=
  match learningLangCode s with
  | Some code =>
      if truthy code then
        if has_speechSynthesis pf then
          if js_length (voices s) =? 0 then
            (loadVoices pf
               (on_page (with_ttsMessage
                  "Text-to-speech is not ready. Please try clicking the text again shortly."
                  DisplayBlock) s),
             [])
          else
            let voice := find_voice code (voices s) in
            match speak_throws pf with
            | None =>
                (on_page (fun p => with_ttsMessage (ttsMessage_textContent p)
                                     DisplayNone p) s,
                 [SpeechSpeak text code voice])
            | Some e =>
                (on_page (with_ttsMessage
                   "Speech synthesis failed. Your browser might have restrictions."
                   DisplayBlock) s,
                 [ConsoleError "TTS speak failed:"])
            end
        else
          (on_page (with_errorMessage
             "Text-to-speech is not supported in this browser."
             DisplayBlock) s,
           [])
      else (s, [ConsoleError "No learning language code set."])
  | None => (s, [ConsoleError "No learning language code set."])
  end.

Definition is_speech (e : Effect) : bool :=
  match e with SpeechSpeak _ _ _ => true | _ => false end.

End Speech.

(** ** The generate button *)

Module Generate.
Import GenerationClient.

Definition topicMap : list (string * string) := [
  ("business", "business");
  ("clothes", "clothes");
  ("common_conversation", "common conversation");
  ("computers", "computers");
  ("food_and_drink", "food and drink");
  ("games", "games");
  ("grammar_conjunctions",
   "beginner phrases using conjunctions like " +:+ quoted "and," +:+ " "
     +:+ quoted "or," +:+ " " +:+ quoted "but," +:+ " and " +:+ quoted "so");
  ("grammar_farewells", "beginner phrases for farewells and goodbyes");
  ("grammar_introductions", "beginner phrases for self-introductions");
  ("grammar_pronouns",
   "beginner phrases using pronouns like " +:+ quoted "I," +:+ " "
     +:+ quoted "you," +:+ " " +:+ quoted "he," +:+ " " +:+ quoted "she,"
     +:+ " and " +:+ quoted "they");
  ("grammar_quantitative",
   "beginner phrases using quantitative words like " +:+ quoted "some,"
     +:+ " " +:+ quoted "all," +:+ " " +:+ quoted "none," +:+ " "
     +:+ quoted "many," +:+ " and " +:+ quoted "few");
  ("grammar_wh",
   "beginner phrases using " +:+ quoted "who," +:+ " " +:+ quoted "what,"
     +:+ " " +:+ quoted "when," +:+ " " +:+ quoted "where," +:+ " and "
     +:+ quoted "why");
  ("school", "school");
  ("science", "science");
  ("shopping", "shopping");
  ("sports", "sports");
  ("technology", "technology")
].

(** [topicMap[selectedTopic] || selectedTopic] *)
Definition mapped_topic (selectedTopic : string) : string :=
  match List.find (fun kv => String.eqb (fst kv) selectedTopic) topicMap with
  | Some kv => snd kv
  | None => selectedTopic
  end.

(** Lines 304-330. *)
Definition topic_of (f : Form) : string :=
  if String.eqb (topicSelect_value f) "custom"
  then trim (customTopicInput_value f)
  else mapped_topic (topicSelect_value f).

(** [phrasesData.map(p => p.learning)], the phrases to exclude. *)
Definition learningPhrasesOnly (deck : list Phrase) : list string :=
  List.map learning deck.

(** The phrases to exclude, as a set. *)
Definition exclusion_set (deck : list Phrase) : gset string :=
  list_to_set (learningPhrasesOnly deck).

(** Lines 389-393. *)
Definition excludedPhrases (deck : list Phrase) : string :=
  if js_length deck >? 0 then
    "Please ensure none of the new phrases are identical to these: "
      +:+ join_comma (learningPhrasesOnly deck) +:+ "."
  else "".

Definition nl : string := String (ascii_of_nat 10) "        ".

(** The template literal of lines 396-401. *)
Definition generationPrompt (topic excluded nativeName learningName : string)
    : string :=
  "Generate a JSON array of ten random, beginner-level phrases about "
    +:+ quoted topic +:+ ". " +:+ excluded +:+ " For each phrase, provide:"
    +:+ nl +:+ "1. The original text in " +:+ nativeName +:+ " ('native' key)."
    +:+ nl +:+ "2. The translation into " +:+ learningName +:+ " ('learning' key)."
    +:+ nl +:+ "3. The transliteration of the native text ('native_phonetics' key) if it does not use the Latin alphabet (e.g., pinyin for Chinese, romaji for Japanese, hangul for Korean, Cyrillic for Russian). If it uses the Latin alphabet, the value should be an empty string."
    +:+ nl +:+ "4. The transliteration of the learning text ('learning_phonetics' key) if it does not use the Latin alphabet. If it does, the value should be an empty string."
    +:+ nl +:+ "5. A word-by-word translation as a JSON array ('word_by_word_learning' key). Each object in the array should have three keys: 'original' for the word in the learning language, 'transliteration' for its phonetic spelling (if applicable, otherwise empty), and 'translated' for its English translation. Ensure the word-by-word list corresponds to the full learning phrase.".

(** Lines 347-351: the button is disabled, the previous results hidden,
    the loading indicator shown and the cursor put back to 0. *)
Definition prepare (s : State) : State :=
  let s := on_page (fun p => with_generateBtn true (generateBtn_textContent p) p) s in
  let s := on_page (with_outputContainer DisplayNone) s in
  let s := on_page (fun p => with_errorMessage (errorMessage_textContent p)
                               DisplayNone p) s in
  let s := on_page (with_statusMessage DisplayBlock) s in
  set_currentPhraseIndex 0 s.

(** The prompt the [try] block builds, or the TypeError of reading
    [name] of a language that [find] did not return. *)
Definition build_prompt (topic : string) (s : State) : Error + string :=
  match find_language (nativeLangSelect_value (form s)),
        find_language (learningLangSelect_value (form s)) with
  | Some nativeLang, Some learningLang =>
      inr (generationPrompt topic (excludedPhrases (phrasesData s))
             (lang_name nativeLang) (lang_name learningLang))
  | None, _ => inl (TypeError "nativeLang is undefined")
  | _, None => inl (TypeError "learningLang is undefined")
  end.

(** The [try] block, lines 353-415: the state and trace it leaves and the
    exception that reaches the [catch], if any. [now] is [Date.now()] at
    the call of [startTimer]. *)
Definition try_generate (net : nat -> FetchOutcome) (now : Z)
    (topic : string) (s : State) : State * list Effect * option Error :=
  match build_prompt topic s with
  | inl e => (s, [], Some e)
  | inr generationPrompt =>
      match callGeminiAPI generationPrompt net with
      | (Threw e, tr) => (s, tr, Some e)
      | (Returned generatedPhrases, tr) =>
          let s := set_phrasesData generatedPhrases s in
          match Deck.displayCurrentPhrase s with
          | (s, Some e) => (s, tr, Some e)
          | (s, None) =>
              let s := on_page (with_outputContainer DisplayBlock) s in
              (Cooldown.startTimer now s, tr, None)
          end
      end
  end.

(** The [catch] block, lines 416-419. *)
Definition catch_generate (s : State) : State * list Effect :=
  (on_page (with_errorMessage
     "Sorry, something went wrong. Please try again." DisplayBlock) s,
   [ConsoleError "Failed to generate or translate phrases:"]).

(** How a click on the button ended. *)
Inductive Outcome := Rejected | Failed (e : Error) | Succeeded.

(** The click listener of the generate button, lines 301-424. *)
Definition click (net : nat -> FetchOutcome) (now : Z) (s : State)
    : State * list Effect * Outcome :=
  let nativeLangCode := nativeLangSelect_value (form s) in
  let s := set_learningLangCode (Some (learningLangSelect_value (form s))) s in
  let selectedTopic := topicSelect_value (form s) in
  let topic := topic_of (form s) in
  if (negb (truthy nativeLangCode) || negb (truthy_opt (learningLangCode s)))%bool
  then
    (on_page (with_errorMessage
       "Please select a native language, a learning language, and a topic."
       DisplayBlock) s, [], Rejected)
  else if (String.eqb selectedTopic "custom"
           && String.eqb (trim (customTopicInput_value (form s))) "")%bool
  then
    (on_page (with_errorMessage "Please enter a custom topic." DisplayBlock) s,
     [], Rejected)
  else
    let s := prepare s in
    match try_generate net now topic s with
    | (s, tr, Some e) =>
        let '(s, tr') := catch_generate s in
        (on_page (with_statusMessage DisplayNone) s, tr ++ tr', Failed e)
    | (s, tr, None) =>
        (on_page (with_statusMessage DisplayNone) s, tr, Succeeded)
    end.

(** The request a click sends, if it sends one. *)
Definition request_of (s : State) : Error + string :=
  build_prompt (topic_of (form s)) s.

Definition state_of (r : State * list Effect * Outcome) : State := fst (fst r).
Definition trace_of (r : State * list Effect * Outcome) : list Effect := snd (fst r).
Definition outcome_of (r : State * list Effect * Outcome) : Outcome := snd r.

End Generate.

(** ** The session as an event loop *)

Module Session.
Import GenerationClient.

(** What the browser can deliver to the listeners the script registers.
    An event carries what the outside world answers while its listener
    runs. A listener runs to completion before the next event is taken;
    events delivered while the generate listener awaits are not
    interleaved. *)
Inductive Event :=
| WindowLoad (pf : Speech.Platform)
| VoicesChanged (catalog : list Voice)
| FormChange (f : Form)
| ClickGenerate (net : nat -> FetchOutcome) (now : Z)
| ClickPrev
| ClickNext
| KeyDown (key : string)
| ClickLearningPhrase (pf : Speech.Platform)
| ClickWordTab (i : nat) (pf : Speech.Platform)
| IntervalFires (handle : nat) (now : Z).

(** An exception that leaves a listener is reported on the console. *)
Definition uncaught (r : State * option Error) : State * list Effect :=
  match r with
  | (s, Some e) => (s, [ConsoleError ("Uncaught " +:+ err_name e)])
  | (s, None) => (s, [])
  end.

(** One event. A disabled button delivers no click. *)
Definition dispatch (ev : Event) (s : State) : State * list Effect :=
  match ev with
  | WindowLoad pf => (Speech.loadVoices pf s, [])
  | VoicesChanged catalog => (Speech.voiceschanged catalog s, [])
  | FormChange f => (set_form f s, [])
  | ClickGenerate net now =>
      if generateBtn_disabled (page s) then (s, [])
      else let '(s', tr, _) := Generate.click net now s in (s', tr)
  | ClickPrev =>
      if prevBtn_disabled (card (page s)) then (s, [])
      else uncaught (Deck.showPreviousPhrase s)
  | ClickNext =>
      if nextBtn_disabled (card (page s)) then (s, [])
      else uncaught (Deck.showNextPhrase s)
  | KeyDown key =>
      match outputContainer_display (page s) with
      | DisplayBlock =>
          if String.eqb key "ArrowLeft" then uncaught (Deck.showPreviousPhrase s)
          else if String.eqb key "ArrowRight" then uncaught (Deck.showNextPhrase s)
          else (s, [])
      | _ => (s, [])
      end
  | ClickLearningPhrase pf =>
      match Deck.current s with
      | Some currentPhrase => Speech.speakText pf (learning currentPhrase) s
      | None => (s, [])
      end
  | ClickWordTab i pf =>
      match wordByWordContainer (card (page s)) !! i with
      | Some wordObj => Speech.speakText pf (original wordObj) s
      | None => (s, [])
      end
  | IntervalFires h now => (Cooldown.fire h now s, [])
  end.

(** A sequence of events, from a state. *)
Fixpoint run (evs : list Event) (s : State) : State * list Effect :=
  match evs with
  | [] => (s, [])
  | ev :: evs' =>
      let '(s1, tr1) := dispatch ev s in
      let '(s2, tr2) := run evs' s1 in
      (s2, tr1 ++ tr2)
  end.

(** The states a session can be in. *)
Definition reachable (s : State) : Prop :=
  exists f evs, fst (run evs (initial_state f)) = s.

(** The generate button accepts a click. *)
Definition can_regenerate (s : State) : Prop :=
  generateBtn_disabled (page s) = false.

(** No cooldown window is pending: no interval is live. *)
Definition idle (s : State) : Prop := intervals (host s) = [].

(** The timer discipline of a session: at most one interval is live; when
    one is, the variable [timerInterval] holds its handle and the generate
    button is disabled. *)
Definition timer_discipline (s : State) : Prop :=
  idle s
  \/ exists h endTime,
       intervals (host s) = [(h, endTime)]
       /\ timerInterval s = Some h
       /\ generateBtn_disabled (page s) = true.

(** What only the generate button and the timer touch. *)
Definition same_controls (s s' : State) : Prop :=
  phrasesData s' = phrasesData s
  /\ learningLangCode s' = learningLangCode s
  /\ timerInterval s' = timerInterval s
  /\ intervals (host s') = intervals (host s)
  /\ generateBtn_disabled (page s') = generateBtn_disabled (page s).

(** The events of the generate button and of the timer. *)
Definition is_generate (ev : Event) : bool :=
  match ev with ClickGenerate _ _ => true | _ => false end.

Definition is_interval (ev : Event) : bool :=
  match ev with IntervalFires _ _ => true | _ => false end.

End Session.

(** ** Sample data *)

Module Sample.
Import GenerationClient.

Definition hola : Phrase :=
  {| native := "Hello"; learning := "Hola"; native_phonetics := "";
     learning_phonetics := "";
     word_by_word_learning :=
       [{| original := "Hola"; transliteration := ""; translated := "Hello" |}] |}.

Definition adios : Phrase :=
  {| native := "Goodbye"; learning := "Adios"; native_phonetics := "";
     learning_phonetics := "";
     word_by_word_learning :=
       [{| original := "Adios"; transliteration := ""; translated := "Goodbye" |}] |}.

Definition gracias : Phrase :=
  {| native := "Thank you"; learning := "Gracias"; native_phonetics := "";
     learning_phonetics := "";
     word_by_word_learning :=
       [{| original := "Gracias"; transliteration := ""; translated := "Thanks" |}] |}.

(** English to Spanish, about food and drink. *)
Definition en_es : Form :=
  {| nativeLangSelect_value := "en-US"; learningLangSelect_value := "es-ES";
     topicSelect_value := "food_and_drink"; customTopicInput_value := "" |}.

(** A network that is down. *)
Definition offline : Error :=
  {| err_name := "TypeError"; err_message := "Failed to fetch" |}.

Definition net_down : nat -> FetchOutcome := fun _ => FetchRejects offline.

(** A response that carries the phrases [ps]. *)
Definition answer (ps : list Phrase) : FetchOutcome :=
  FetchResolves true "OK"
    (BodyJson {| candidates :=
       Some [{| content := Some {| parts := Some [{| text := PhraseArray ps |}] |} |}] |}).

Definition net_up (ps : list Phrase) : nat -> FetchOutcome := fun _ => answer ps.

(** A network that answers at the third attempt: first a rejected
    [fetch], then a status that is not ok. *)
Definition net_third (ps : list Phrase) : nat -> FetchOutcome :=
  fun i =>
    match i with
    | O => FetchRejects offline
    | S O => FetchResolves false "Service Unavailable" (BodyRejects offline)
    | _ => answer ps
    end.

Definition platform (catalog : list Voice) : Speech.Platform :=
  {| Speech.has_speechSynthesis := true; Speech.getVoices := catalog;
     Speech.speak_throws := None |}.

Definition en_GB : Voice := {| voice_name := "Daniel"; lang := "en-GB" |}.
Definition en_US : Voice := {| voice_name := "Samantha"; lang := "en-US" |}.
Definition es_ES : Voice := {| voice_name := "Monica"; lang := "es-ES" |}.

(** A session in which two phrases were generated at time 0, the learner
    moved to the second, and the cooldown ran out. *)
Definition browsing_events : list Session.Event :=
  [Session.WindowLoad (platform [en_GB; en_US; es_ES]);
   Session.ClickGenerate (net_up [hola; adios]) 0;
   Session.ClickNext;
   Session.IntervalFires 1 300000].

Definition browsing : State :=
  fst (Session.run browsing_events (initial_state en_es)).

(** Spanish to English. *)
Definition es_en : Form :=
  {| nativeLangSelect_value := "es-ES"; learningLangSelect_value := "en-US";
     topicSelect_value := "common_conversation"; customTopicInput_value := "" |}.

Definition hello : Phrase :=
  {| native := "Hola"; learning := "Hello"; native_phonetics := "";
     learning_phonetics := "";
     word_by_word_learning :=
       [{| original := "Hello"; transliteration := ""; translated := "Hello" |}] |}.

(** A learner of American English on a platform whose catalog lists a
    British voice before an American one. *)
Definition learning_english : State :=
  fst (Session.run
         [Session.WindowLoad (platform [en_GB; en_US]);
          Session.ClickGenerate (net_up [hello]) 0]
         (initial_state es_en)).

(** A session just after three phrases were generated at time 0. *)
Definition fresh : State :=
  fst (Session.run
         [Session.WindowLoad (platform [es_ES]);
          Session.ClickGenerate (net_third [hola; adios; gracias]) 0]
         (initial_state en_es)).

End Sample.

(** ** The rest of the page *)

Module Surface.
Import GenerationClient Session.

(** [populateDropdowns()], lines 54-64: the options appended to each of
    the two selects, as pairs of [value] and [textContent]. *)
Definition populateDropdowns : list (string * string) :=
  List.map (fun lang => (lang_code lang, lang_name lang)) languages.

(** A value one of the populated options carries. *)
Definition offered (code : string) : Prop :=
  In code (List.map fst populateDropdowns).

(** Both languages of the form are in the table. *)
Definition known_form (f : Form) : bool :=
  match find_language (nativeLangSelect_value f),
        find_language (learningLangSelect_value f) with
  | Some _, Some _ => true
  | _, _ => false
  end.

(** The two validations of the click listener, lines 333 and 340. *)
Definition rejects (f : Form) : bool :=
  (negb (truthy (nativeLangSelect_value f))
   || negb (truthy (learningLangSelect_value f))
   || (String.eqb (topicSelect_value f) "custom"
       && String.eqb (trim (customTopicInput_value f)) ""))%bool.

(** [n.toString()] for an integer, and [s.padStart(2, '0')]. *)
Definition toString (n : Z) : string :=
  DecimalString.NilZero.string_of_int (Z.to_int n).

Definition padStart_2_0 (s : string) : string :=
  match String.length s with
  | O => "00"
  | S O => "0" +:+ s
  | _ => s
  end.

(** [formattedTime], lines 282-284, for the [timeLeft] of the callback. *)
Definition formattedTime (timeLeft : Z) : string :=
  let minutes := timeLeft / 60 in
  let seconds := Z.rem timeLeft 60 in
  padStart_2_0 (toString minutes) +:+ ":" +:+ padStart_2_0 (toString seconds).

(** What a run of the callback writes into the bubble, line 285: nothing
    in its expiry branch. *)
Definition timerBubble_textContent (endTime now : Z) : option string :=
  if Cooldown.expired endTime now then None
  else Some ("Next generation in: "
               +:+ formattedTime (Cooldown.timeLeft endTime now)).

(** The time a trace spends waiting. *)
Definition total_wait (tr : list Effect) : Z :=
  List.fold_right Z.add 0 (waits tr).

(** The results are on screen. *)
Definition visible (s : State) : Prop :=
  outputContainer_display (page s) = DisplayBlock.

(** The card shows phrase [p] at position [index] of [total]: its two
    texts, its word tabs, the counter and the two navigation buttons. *)
Definition card_shows (c : Card) (p : Phrase) (index total : Z) : Prop :=
  nativePhraseEl c = native p
  /\ learningPhraseTextEl c = learning p
  /\ wordByWordContainer c = word_by_word_learning p
  /\ phraseCounter c = (index + 1, total)
  /\ prevBtn_disabled c = (index =? 0)
  /\ nextBtn_disabled c = (index =? total - 1).

(** The languages of the form are in the table and, for a deck that is
    not empty, the card shows the phrase under the cursor. *)
Definition synced (s : State) : Prop :=
  known_form (form s) = true
  /\ (phrasesData s <> [] ->
      exists p, Deck.current s = Some p
                /\ card_shows (card (page s)) p (currentPhraseIndex s)
                     (js_length (phrasesData s))).

(** That, while the results are on screen. *)
Definition in_sync (s : State) : Prop := visible s -> synced s.

(** A change of the form that keeps both languages in the table. *)
Definition keeps_known (ev : Event) : Prop :=
  match ev with
  | FormChange f => known_form f = true
  | _ => True
  end.

(** An event that is not a late run of the interval: the clock of a run
    of the interval is at most [limit]. *)
Definition not_later_than (limit : Z) (ev : Event) : Prop :=
  match ev with
  | IntervalFires _ now => now <= limit
  | _ => True
  end.

Definition is_load (ev : Event) : bool :=
  match ev with WindowLoad _ => true | _ => false end.

End Surface.

(** ** More sample data *)

Module MoreSample.
Import GenerationClient Session.

(** A session whose page never got a voice: phrases were generated, but
    the catalog was empty at load. *)
Definition silent_events : list Event :=
  [WindowLoad (Sample.platform []);
   ClickGenerate (Sample.net_up [Sample.hola; Sample.adios]) 0].

Definition silent : State := fst (run silent_events (initial_state Sample.en_es)).

(** The learner of [Sample.browsing] has switched the learning language
    to Japanese and chosen a custom topic, left blank. *)
Definition custom_blank : Form :=
  {| nativeLangSelect_value := "en-US"; learningLangSelect_value := "ja-JP";
     topicSelect_value := "custom"; customTopicInput_value := "   " |}.

Definition undecided : State := set_form custom_blank Sample.browsing.


(** What happens during a cooldown started at time 400000: an early run
    of the interval, an attempt to regenerate, a step. *)
Definition impatient : list Event :=
  [IntervalFires 2 500000;
   ClickGenerate Sample.net_down 500001;
   ClickNext;
   IntervalFires 2 699000].

End MoreSample.

(** ** The click listener around its await *)

(** The click listener of the generate button is asynchronous: it runs
    from the click to the call of [callGeminiAPI] (line 404), where it is
    suspended, and runs again from there when that call completes. Other
    listeners run in between. [Generate.click] is the schedule in which none
    does. *)

Module Await.
Import GenerationClient Generate.

(** How the first run ends: the listener has returned, or it awaits the
    answer to [prompt]. *)
Inductive Started :=
| Done (s : State) (tr : list Effect) (o : Outcome)
| Awaiting (s : State) (prompt : string).

(** Lines 301-404, up to the call. A language that [find] did not return
    raises inside the [try] block, before the call, and is handled at once. *)
Definition start (s : State) : Started :=
  let nativeLangCode := nativeLangSelect_value (form s) in
  let s := set_learningLangCode (Some (learningLangSelect_value (form s))) s in
  let selectedTopic := topicSelect_value (form s) in
  let topic := topic_of (form s) in
  if (negb (truthy nativeLangCode) || negb (truthy_opt (learningLangCode s)))%bool
  then
    Done (on_page (with_errorMessage
            "Please select a native language, a learning language, and a topic."
            DisplayBlock) s) [] Rejected
  else if (String.eqb selectedTopic "custom"
           && String.eqb (trim (customTopicInput_value (form s))) "")%bool
  then
    Done (on_page (with_errorMessage "Please enter a custom topic." DisplayBlock) s)
      [] Rejected
  else
    let s := prepare s in
    match build_prompt topic s with
    | inl e =>
        let '(s, tr) := catch_generate s in
        Done (on_page (with_statusMessage DisplayNone) s) tr (Failed e)
    | inr generationPrompt => Awaiting s generationPrompt
    end.

(** Lines 404-423: the listener resumes, in the state the page is in by
    then, with the completion of the call. [now] is [Date.now()] at the
    call of [startTimer]. The deck is replaced before it is rendered, and
    the cursor is not written. *)
Definition resume (c : Completion (list Phrase)) (now : Z) (s : State)
    : State * list Effect * Outcome :=
  match c with
  | Threw e =>
      let '(s, tr) := catch_generate s in
      (on_page (with_statusMessage DisplayNone) s, tr, Failed e)
  | Returned generatedPhrases =>
      let s := set_phrasesData generatedPhrases s in
      match Deck.displayCurrentPhrase s with
      | (s, Some e) =>
          let '(s, tr) := catch_generate s in
          (on_page (with_statusMessage DisplayNone) s, tr, Failed e)
      | (s, None) =>
          let s := on_page (with_outputContainer DisplayBlock) s in
          (on_page (with_statusMessage DisplayNone) (Cooldown.startTimer now s),
           [], Succeeded)
      end
  end.

(** The call, then the rest of the listener. *)
Definition settle (prompt : string) (net : nat -> FetchOutcome) (now : Z)
    (s : State) : State * list Effect * Outcome :=
  let '(c, tr) := callGeminiAPI prompt net in
  let '(s', tr', o) := resume c now s in
  (s', tr ++ tr', o).

(** A step forward or backward, by button or by key. *)
Definition is_navigation (ev : Session.Event) : bool :=
  match ev with
  | Session.ClickPrev | Session.ClickNext | Session.KeyDown _ => true
  | _ => false
  end.

End Await.

(** ** The session with its pending requests *)

Module Schedule.
Import GenerationClient Generate Session Await.

(** A suspended run of the click listener: the prompt it sent, and what
    its click carries, the answers of the network and the clock at the
    start of the timer. *)
Record Flight := {
  flight_prompt : string;
  flight_net : nat -> FetchOutcome;
  flight_now : Z
}.

(** What happens next: the browser delivers an event, or the oldest
    pending call completes and its listener resumes. *)
Inductive Step :=
| Deliver (ev : Event)
| Settle.

(** The page and the suspended listeners, oldest first. *)
Definition Live : Type := State * list Flight.

Definition step (st : Step) (l : Live) : Live * list Effect :=
  let '(s, pending) := l in
  match st with
  | Deliver (ClickGenerate net now) =>
      if generateBtn_disabled (page s) then (l, [])
      else
        match start s with
        | Done s' tr _ => ((s', pending), tr)
        | Awaiting s' prompt =>
            ((s', pending ++ [{| flight_prompt := prompt; flight_net := net;
                                 flight_now := now |}]), [])
        end
  | Deliver ev =>
      let '(s', tr) := dispatch ev s in ((s', pending), tr)
  | Settle =>
      match pending with
      | [] => (l, [])
      | f :: pending' =>
          let '(s', tr, _) :=
            settle (flight_prompt f) (flight_net f) (flight_now f) s in
          ((s', pending'), tr)
      end
  end.

Fixpoint steps (sts : list Step) (l : Live) : Live * list Effect :=
  match sts with
  | [] => (l, [])
  | st :: sts' =>
      let '(l1, tr1) := step st l in
      let '(l2, tr2) := steps sts' l1 in
      (l2, tr1 ++ tr2)
  end.

(** The states of a session, requests pending or not. *)
Definition reachable (l : Live) : Prop :=
  exists f sts, fst (steps sts (initial_state f, [])) = l.

(** At most one request is pending; while one is, the generate button is
    disabled and no interval is live. *)
Definition one_at_a_time (l : Live) : Prop :=
  timer_discipline (fst l)
  /\ (snd l = []
      \/ exists f, snd l = [f]
           /\ generateBtn_disabled (page (fst l)) = true /\ idle (fst l)).

End Schedule.

(** ** The retry policy in words *)

Module Policy.
Import GenerationClient.

(** What makes an attempt fail, and the cause it fails with: a network
    error; a status that is not a success, whatever the body; a body that
    is not JSON; a payload without the candidate text; a text that does not
    parse. *)
Inductive Fails : FetchOutcome -> Error -> Prop :=
| network_error e :
    Fails (FetchRejects e) e
| bad_status statusText body :
    Fails (FetchResolves false statusText body)
      {| err_name := "Error";
         err_message := "API response error: " +:+ statusText |}
| body_not_json statusText e :
    Fails (FetchResolves true statusText (BodyRejects e)) e
| no_candidates statusText :
    Fails (FetchResolves true statusText (BodyJson {| candidates := None |}))
      {| err_name := "Error";
         err_message := "API response format is not as expected." |}
| empty_candidates statusText :
    Fails (FetchResolves true statusText (BodyJson {| candidates := Some [] |}))
      {| err_name := "Error";
         err_message := "API response format is not as expected." |}
| no_content statusText cs :
    Fails (FetchResolves true statusText
             (BodyJson {| candidates := Some ({| content := None |} :: cs) |}))
      {| err_name := "Error";
         err_message := "API response format is not as expected." |}
| no_parts statusText cs :
    Fails (FetchResolves true statusText
             (BodyJson {| candidates :=
                Some ({| content := Some {| parts := None |} |} :: cs) |}))
      {| err_name := "Error";
         err_message := "API response format is not as expected." |}
| empty_parts statusText cs :
    Fails (FetchResolves true statusText
             (BodyJson {| candidates :=
                Some ({| content := Some {| parts := Some [] |} |} :: cs) |}))
      {| err_name := "Error";
         err_message := "API response format is not as expected." |}
| unparsable_text statusText cs ps e :
    Fails (FetchResolves true statusText
             (BodyJson {| candidates :=
                Some ({| content :=
                           Some {| parts := Some ({| text := Unparsable e |} :: ps) |} |}
                      :: cs) |}))
      e.

(** What makes an attempt succeed, and the phrases it gives: a success
    status whose payload carries, in the first part of its first candidate,
    a text that parses to them. *)
Inductive Answers : FetchOutcome -> list Phrase -> Prop :=
| parsed_text statusText cs ps phrases :
    Answers (FetchResolves true statusText
               (BodyJson {| candidates :=
                  Some ({| content :=
                             Some {| parts :=
                                       Some ({| text := PhraseArray phrases |} :: ps) |} |}
                        :: cs) |}))
      phrases.

End Policy.

(** ** Sample requests *)

Module AwaitSample.
Import GenerationClient Session Schedule.

(** A response with a success status and a payload without candidates. *)
Definition no_candidate : FetchOutcome :=
  FetchResolves true "OK" (BodyJson {| candidates := Some [] |}).

(** A response with a success status whose text does not parse. *)
Definition syntax_error : Error :=
  {| err_name := "SyntaxError"; err_message := "Unexpected end of JSON input" |}.

Definition truncated : FetchOutcome :=
  FetchResolves true "OK"
    (BodyJson {| candidates :=
       Some [{| content :=
                  Some {| parts := Some [{| text := Unparsable syntax_error |}] |} |}] |}).

(** A response whose status is not a success although its body carries
    phrases. *)
Definition unavailable (ps : list Phrase) : FetchOutcome :=
  match Sample.answer ps with
  | FetchResolves _ _ body => FetchResolves false "Service Unavailable" body
  | o => o
  end.

(** A network that fails in four ways, then answers. *)
Definition net_flaky (ps : list Phrase) : nat -> FetchOutcome :=
  fun i =>
    match i with
    | O => FetchRejects Sample.offline
    | S O => unavailable ps
    | S (S O) => no_candidate
    | S (S (S O)) => truncated
    | _ => Sample.answer ps
    end.

(** A network that fails in five ways. *)
Definition net_failing (ps : list Phrase) : nat -> FetchOutcome :=
  fun i =>
    match i with
    | O => FetchRejects Sample.offline
    | S O => unavailable ps
    | S (S O) => no_candidate
    | S (S (S O)) => FetchResolves true "OK" (BodyRejects Sample.offline)
    | _ => truncated
    end.

(** A session with two phrases on screen, the cursor on the first, and
    the cooldown over. *)
Definition ready_steps : list Step :=
  [Deliver (WindowLoad (Sample.platform [Sample.es_ES]));
   Deliver (ClickGenerate (Sample.net_up [Sample.hola; Sample.adios]) 0);
   Settle;
   Deliver (IntervalFires 1 300000)].

Definition ready : State :=
  fst (fst (steps ready_steps (initial_state Sample.en_es, []))).

(** The learner asks for new phrases and, while the request is pending,
    steps forward; the answer holds one phrase. *)
Definition overtaken_steps : list Step :=
  ready_steps
  ++ [Deliver (ClickGenerate (Sample.net_up [Sample.gracias]) 400000);
      Deliver ClickNext;
      Settle].

Definition overtaken : State :=
  fst (fst (steps overtaken_steps (initial_state Sample.en_es, []))).

(** The prompt of a click in [ready]. *)
Definition ready_prompt : string :=
  match Generate.request_of ready with
  | inr prompt => prompt
  | inl _ => ""
  end.

(** [ready] after a click on the generate button, the request pending,
    and then after a step forward. *)
Definition ready_sent : State :=
  Generate.prepare
    (set_learningLangCode (Some (learningLangSelect_value (form ready))) ready).

Definition stepped_events : list Event := [ClickNext].

Definition stepped : State := fst (run stepped_events ready_sent).

End AwaitSample.

(** * Properties *)

(** ** The generation client *)

Module GenerationClientFacts.
Import GenerationClient.

Lemma retry_loop_S fuel prompt net calls retries delay :
  retry_loop (S fuel) prompt net calls retries delay
  = if retries <? maxRetries then
      match try_block (net calls) with
      | inr json => Some (ByReturn json, [Fetch prompt])
      | inl error =>
          if retries + 1 <? maxRetries then
            match retry_loop fuel prompt net (S calls) (retries + 1) (delay * 2) with
            | Some (r, tr) =>
                Some (r, Fetch prompt :: ConsoleError "API call failed:"
                           :: Wait delay :: tr)
            | None => None
            end
          else Some (ByThrow error, failed_attempt prompt)
      end
    else Some (ByCondition, []).
Proof. reflexivity. Qed.

(** One more round of fuel does not change a result. *)
Lemma retry_loop_more_fuel prompt net :
  forall fuel calls retries delay r,
    retry_loop fuel prompt net calls retries delay = Some r ->
    retry_loop (S fuel) prompt net calls retries delay = Some r.
Proof.
  induction fuel as [|fuel IH]; intros calls retries delay r H; [discriminate|].
  rewrite retry_loop_S in H. rewrite retry_loop_S.
  destruct (retries <? maxRetries); [|exact H].
  destruct (try_block (net calls)); [|exact H].
  destruct (retries + 1 <? maxRetries); [|exact H].
  destruct (retry_loop fuel prompt net (S calls) (retries + 1) (delay * 2))
    as [[r' tr']|] eqn:E; [|discriminate].
  rewrite (IH _ _ _ _ E). exact H.
Qed.

Lemma retry_loop_fuel_le prompt net calls retries delay r :
  forall fuel fuel', (fuel <= fuel')%nat ->
    retry_loop fuel prompt net calls retries delay = Some r ->
    retry_loop fuel' prompt net calls retries delay = Some r.
Proof.
  intros fuel fuel' Hle. induction Hle as [|m Hle IH]; [tauto|].
  intros H. apply retry_loop_more_fuel. auto.
Qed.

(** The loop is left by [return] or [throw], never by its condition, and
    [callGeminiAPI] is that exit. *)
Lemma retry_loop_exit prompt net :
  retry_loop 5 prompt net 0 0 1000
  = Some (as_exit (fst (callGeminiAPI prompt net)),
          snd (callGeminiAPI prompt net)).
Proof.
  unfold callGeminiAPI. cbn.
  destruct (try_block (net 0%nat)); [|reflexivity].
  destruct (try_block (net 1%nat)); [|reflexivity].
  destruct (try_block (net 2%nat)); [|reflexivity].
  destruct (try_block (net 3%nat)); [|reflexivity].
  destruct (try_block (net 4%nat)); reflexivity.
Qed.

(** The five answers decide the call: its completion and its trace. *)
Lemma callGeminiAPI_cases prompt net :
  callGeminiAPI prompt net =
  match try_block (net 0%nat) with
  | inr v => (Returned v, failed_prefix prompt 0 ++ [Fetch prompt])
  | inl _ =>
  match try_block (net 1%nat) with
  | inr v => (Returned v, failed_prefix prompt 1 ++ [Fetch prompt])
  | inl _ =>
  match try_block (net 2%nat) with
  | inr v => (Returned v, failed_prefix prompt 2 ++ [Fetch prompt])
  | inl _ =>
  match try_block (net 3%nat) with
  | inr v => (Returned v, failed_prefix prompt 3 ++ [Fetch prompt])
  | inl _ =>
  match try_block (net 4%nat) with
  | inr v => (Returned v, failed_prefix prompt 4 ++ [Fetch prompt])
  | inl e => (Threw e, failed_prefix prompt 4 ++ failed_attempt prompt)
  end end end end end.
Proof.
  unfold callGeminiAPI. cbn.
  destruct (try_block (net 0%nat)); [|reflexivity].
  destruct (try_block (net 1%nat)); [|reflexivity].
  destruct (try_block (net 2%nat)); [|reflexivity].
  destruct (try_block (net 3%nat)); [|reflexivity].
  destruct (try_block (net 4%nat)); reflexivity.
Qed.

Lemma attempt_fails_inr o v : try_block o = inr v -> attempt_fails o = false.
Proof. unfold attempt_fails. intros ->. reflexivity. Qed.

Lemma attempt_fails_inl o : attempt_fails o = true -> exists e, try_block o = inl e.
Proof. unfold attempt_fails. destruct (try_block o); [eauto|discriminate]. Qed.

End GenerationClientFacts.

(** ** The deck *)

Module DeckFacts.
Import Deck.

(** Rendering writes the page only. *)
Lemma displayCurrentPhrase_deck s :
  phrasesData (fst (displayCurrentPhrase s)) = phrasesData s
  /\ currentPhraseIndex (fst (displayCurrentPhrase s)) = currentPhraseIndex s.
Proof.
  unfold displayCurrentPhrase.
  repeat case_match; simplify_eq; auto.
Qed.

Lemma showNextPhrase_deck s :
  phrasesData (fst (showNextPhrase s)) = phrasesData s
  /\ currentPhraseIndex (fst (showNextPhrase s))
     = if currentPhraseIndex s <? js_length (phrasesData s) - 1
       then currentPhraseIndex s + 1 else currentPhraseIndex s.
Proof.
  unfold showNextPhrase.
  destruct (currentPhraseIndex s <? js_length (phrasesData s) - 1); [|auto].
  destruct (displayCurrentPhrase_deck
              (set_currentPhraseIndex (currentPhraseIndex s + 1) s)) as [-> ->].
  auto.
Qed.

Lemma showPreviousPhrase_deck s :
  phrasesData (fst (showPreviousPhrase s)) = phrasesData s
  /\ currentPhraseIndex (fst (showPreviousPhrase s))
     = if currentPhraseIndex s >? 0
       then currentPhraseIndex s - 1 else currentPhraseIndex s.
Proof.
  unfold showPreviousPhrase.
  destruct (currentPhraseIndex s >? 0); [|auto].
  destruct (displayCurrentPhrase_deck
              (set_currentPhraseIndex (currentPhraseIndex s - 1) s)) as [-> ->].
  auto.
Qed.

Lemma repeat_op_S op n s :
  repeat_op op (S n) s = fst (op (repeat_op op n s)).
Proof. reflexivity. Qed.

(** [k] steps forward from [i] end at [i + k] while that is in range. *)
Lemma repeat_next s (k : nat) :
  currentPhraseIndex s + Z.of_nat k <= js_length (phrasesData s) - 1 ->
  phrasesData (repeat_op showNextPhrase k s) = phrasesData s
  /\ currentPhraseIndex (repeat_op showNextPhrase k s)
     = currentPhraseIndex s + Z.of_nat k.
Proof.
  induction k as [|k IH]; intros Hk.
  - cbn. split; [reflexivity|lia].
  - destruct IH as [IHp IHi]; [lia|].
    rewrite repeat_op_S.
    destruct (showNextPhrase_deck (repeat_op showNextPhrase k s)) as [-> ->].
    rewrite IHp, IHi. split; [reflexivity|].
    destruct (Z.ltb_spec (currentPhraseIndex s + Z.of_nat k)
                (js_length (phrasesData s) - 1)); lia.
Qed.

Lemma repeat_previous s (k : nat) :
  0 <= currentPhraseIndex s - Z.of_nat k ->
  phrasesData (repeat_op showPreviousPhrase k s) = phrasesData s
  /\ currentPhraseIndex (repeat_op showPreviousPhrase k s)
     = currentPhraseIndex s - Z.of_nat k.
Proof.
  induction k as [|k IH]; intros Hk.
  - cbn. split; [reflexivity|lia].
  - destruct IH as [IHp IHi]; [lia|].
    rewrite repeat_op_S.
    destruct (showPreviousPhrase_deck (repeat_op showPreviousPhrase k s)) as [-> ->].
    rewrite IHp, IHi. split; [reflexivity|].
    destruct (Z.gtb_spec (currentPhraseIndex s - Z.of_nat k) 0); lia.
Qed.

(** An operation that does nothing once does nothing ever after. *)
Lemma repeat_noop op s :
  op s = (s, None) -> forall k, repeat_op op k s = s.
Proof.
  intros H k. induction k as [|k IH]; [reflexivity|].
  rewrite repeat_op_S, IH, H. reflexivity.
Qed.

Lemma showNextPhrase_at_end s :
  currentPhraseIndex s = js_length (phrasesData s) - 1 ->
  showNextPhrase s = (s, None).
Proof.
  intros H. unfold showNextPhrase. rewrite H, Z.ltb_irrefl. reflexivity.
Qed.

Lemma showPreviousPhrase_at_start s :
  currentPhraseIndex s = 0 -> showPreviousPhrase s = (s, None).
Proof. intros H. unfold showPreviousPhrase. rewrite H. reflexivity. Qed.

(** C6. In a deck of [n > 0] phrases, [n-1] calls of [showNextPhrase] from
    index 0 end at index [n-1] with the phrases untouched, and from there
    every further call does nothing: no wrap-around. Symmetrically, [n-1]
    calls of [showPreviousPhrase] from index [n-1] end at index 0, and
    every further call does nothing. *)
Theorem navigation_ends_without_wrap (s : State) (n : nat) :
  List.length (phrasesData s) = n -> (0 < n)%nat ->
  (currentPhraseIndex s = 0 ->
     let s' := repeat_op showNextPhrase (n - 1) s in
     currentPhraseIndex s' = Z.of_nat n - 1
     /\ phrasesData s' = phrasesData s
     /\ showNextPhrase s' = (s', None)
     /\ forall k, repeat_op showNextPhrase k s' = s')
  /\ (currentPhraseIndex s = Z.of_nat n - 1 ->
     let s' := repeat_op showPreviousPhrase (n - 1) s in
     currentPhraseIndex s' = 0
     /\ phrasesData s' = phrasesData s
     /\ showPreviousPhrase s' = (s', None)
     /\ forall k, repeat_op showPreviousPhrase k s' = s').
Proof.
  intros Hlen Hn. split; intros Hi s'.
  - destruct (repeat_next s (n - 1)) as [Hp Hc].
    { unfold js_length. lia. }
    fold s' in Hp, Hc.
    assert (Hend : showNextPhrase s' = (s', None)).
    { apply showNextPhrase_at_end. rewrite Hp, Hc. unfold js_length. lia. }
    repeat split; [lia|exact Hp|exact Hend|].
    apply repeat_noop, Hend.
  - destruct (repeat_previous s (n - 1)) as [Hp Hc]; [lia|].
    fold s' in Hp, Hc.
    assert (Hend : showPreviousPhrase s' = (s', None)).
    { apply showPreviousPhrase_at_start. lia. }
    repeat split; [lia|exact Hp|exact Hend|].
    apply repeat_noop, Hend.
Qed.

End DeckFacts.

(** ** The generate button *)

Module GenerateFacts.
Import GenerationClient Generate.

(** With both languages in the table and the cursor on 0, rendering does
    not raise. *)
Lemma displayCurrentPhrase_no_throw s nativeLang learningLang :
  find_language (nativeLangSelect_value (form s)) = Some nativeLang ->
  find_language (learningLangSelect_value (form s)) = Some learningLang ->
  currentPhraseIndex s = 0 ->
  snd (Deck.displayCurrentPhrase s) = None.
Proof.
  intros Hn Hl Hi. unfold Deck.displayCurrentPhrase.
  destruct (js_length (phrasesData s) =? 0) eqn:E; [reflexivity|].
  rewrite Hi. unfold js_length in E.
  destruct (phrasesData s); [discriminate|]. cbn -[find_language].
  rewrite Hn. cbn -[find_language]. rewrite Hl. reflexivity.
Qed.

Lemma build_prompt_inr topic s prompt :
  build_prompt topic s = inr prompt ->
  exists nativeLang learningLang,
    find_language (nativeLangSelect_value (form s)) = Some nativeLang
    /\ find_language (learningLangSelect_value (form s)) = Some learningLang
    /\ prompt = generationPrompt topic (excludedPhrases (phrasesData s))
                  (lang_name nativeLang) (lang_name learningLang).
Proof.
  unfold build_prompt. intros H.
  destruct (find_language (nativeLangSelect_value (form s))) as [n|];
    [|discriminate].
  destruct (find_language (learningLangSelect_value (form s))) as [l|];
    [|discriminate].
  exists n, l. repeat split. congruence.
Qed.

(** A [try] block that raises leaves the state it started from. *)
Lemma try_generate_raises net now topic s s' tr e :
  currentPhraseIndex s = 0 ->
  try_generate net now topic s = (s', tr, Some e) ->
  s' = s
  /\ (build_prompt topic s = inl e
      \/ exists prompt, build_prompt topic s = inr prompt
           /\ callGeminiAPI prompt net = (Threw e, tr)).
Proof.
  intros Hi. unfold try_generate.
  destruct (build_prompt topic s) as [e0|prompt] eqn:Hb.
  { intros [= <- <- <-]. auto. }
  destruct (callGeminiAPI prompt net) as [[v|e1] tr1] eqn:Hc.
  2: { intros [= <- <- <-]. eauto. }
  destruct (build_prompt_inr _ _ _ Hb) as (n & l & Hn & Hl & _).
  pose proof (displayCurrentPhrase_no_throw (set_phrasesData v s) n l Hn Hl Hi) as Hd.
  destruct (Deck.displayCurrentPhrase (set_phrasesData v s)) as [s1 [e2|]];
    [discriminate|].
  discriminate.
Qed.

(** A [try] block that completes has replaced the deck by the phrases the
    client returned, rendered the first and started the timer. *)
Lemma try_generate_completes net now topic s s' tr :
  currentPhraseIndex s = 0 ->
  try_generate net now topic s = (s', tr, None) ->
  exists prompt v,
    build_prompt topic s = inr prompt
    /\ callGeminiAPI prompt net = (Returned v, tr)
    /\ s' = Cooldown.startTimer now
              (on_page (with_outputContainer DisplayBlock)
                 (fst (Deck.displayCurrentPhrase (set_phrasesData v s)))).
Proof.
  intros Hi. unfold try_generate.
  destruct (build_prompt topic s) as [e0|prompt] eqn:Hb; [discriminate|].
  destruct (callGeminiAPI prompt net) as [[v|e1] tr1] eqn:Hc; [|discriminate].
  destruct (Deck.displayCurrentPhrase (set_phrasesData v s)) as [s1 [e2|]] eqn:Hd;
    [discriminate|].
  intros [= <- <-]. exists prompt, v.
  repeat split; [exact Hc|rewrite Hd; reflexivity].
Qed.

(** A failed click: the prepared state plus the error notice. *)
Lemma click_failed net now s e :
  outcome_of (click net now s) = Failed e ->
  state_of (click net now s)
  = on_page (with_statusMessage DisplayNone)
      (fst (catch_generate
         (prepare (set_learningLangCode
            (Some (learningLangSelect_value (form s))) s))))
  /\ (request_of s = inl e
      \/ exists prompt, request_of s = inr prompt
           /\ fst (callGeminiAPI prompt net) = Threw e).
Proof.
  unfold click, outcome_of, state_of, request_of.
  destruct (_ || _)%bool; [discriminate|].
  destruct (_ && _)%bool; [discriminate|].
  set (s1 := prepare _).
  destruct (try_generate net now (topic_of _) s1) as [[s2 tr] [e'|]] eqn:Ht;
    cbn; [|discriminate].
  intros [= ->].
  destruct (try_generate_raises net now _ s1 s2 tr e eq_refl Ht) as [-> Hc].
  split; [reflexivity|].
  destruct Hc as [Hc|(prompt & Hb & Hc)]; [left; exact Hc|right].
  exists prompt. split; [exact Hb|]. rewrite Hc. reflexivity.
Qed.

(** A successful click. *)
Lemma click_succeeded net now s :
  outcome_of (click net now s) = Succeeded ->
  exists prompt v,
    request_of s = inr prompt
    /\ callGeminiAPI prompt net = (Returned v, trace_of (click net now s))
    /\ state_of (click net now s)
       = on_page (with_statusMessage DisplayNone)
           (Cooldown.startTimer now
              (on_page (with_outputContainer DisplayBlock)
                 (fst (Deck.displayCurrentPhrase
                    (set_phrasesData v
                       (prepare (set_learningLangCode
                          (Some (learningLangSelect_value (form s))) s))))))).
Proof.
  unfold click, outcome_of, state_of, trace_of, request_of.
  destruct (_ || _)%bool; [discriminate|].
  destruct (_ && _)%bool; [discriminate|].
  set (s1 := prepare _).
  destruct (try_generate net now (topic_of _) s1) as [[s2 tr] [e'|]] eqn:Ht;
    cbn; [discriminate|].
  intros _.
  destruct (try_generate_completes net now _ s1 s2 tr eq_refl Ht)
    as (prompt & v & Hb & Hc & ->).
  exists prompt, v. auto.
Qed.

Lemma click_rejected net now s :
  outcome_of (click net now s) = Rejected ->
  trace_of (click net now s) = []
  /\ exists msg,
       state_of (click net now s)
       = on_page (with_errorMessage msg DisplayBlock)
           (set_learningLangCode (Some (learningLangSelect_value (form s))) s).
Proof.
  unfold click, outcome_of, state_of, trace_of.
  destruct (_ || _)%bool; [cbn; eauto|].
  destruct (_ && _)%bool; [cbn; eauto|].
  destruct (try_generate _ _ _ _) as [[s2 tr] [e'|]]; discriminate.
Qed.

(** Every request of a call carries the prompt of the call. *)
Lemma callGeminiAPI_fetches prompt net p :
  In (Fetch p) (snd (callGeminiAPI prompt net)) -> p = prompt.
Proof.
  rewrite GenerationClientFacts.callGeminiAPI_cases.
  destruct (try_block (net 0%nat));
    [destruct (try_block (net 1%nat));
      [destruct (try_block (net 2%nat));
        [destruct (try_block (net 3%nat));
          [destruct (try_block (net 4%nat))|]|]|]|];
    cbn; intuition congruence.
Qed.

(** Every request of a click carries the prompt built from the state the
    click found. *)
Lemma click_fetches net now s p :
  In (Fetch p) (trace_of (click net now s)) -> request_of s = inr p.
Proof.
  destruct (outcome_of (click net now s)) eqn:Ho.
  - destruct (click_rejected _ _ _ Ho) as [-> _]. intros [].
  - revert Ho. unfold click, outcome_of, trace_of, request_of.
    destruct (_ || _)%bool; [discriminate|].
    destruct (_ && _)%bool; [discriminate|].
    set (s1 := prepare _).
    destruct (try_generate net now (topic_of _) s1) as [[s2 tr] [e'|]] eqn:Ht;
      cbn; [|discriminate].
    intros _ Hin. apply in_app_or in Hin as [Hin|[Hin|[]]]; [|discriminate].
    destruct (try_generate_raises net now _ s1 s2 tr e' eq_refl Ht)
      as [_ [Hb|(prompt & Hb & Hc)]].
    + unfold try_generate in Ht. rewrite Hb in Ht.
      injection Ht as _ <-. destruct Hin.
    + pose proof (callGeminiAPI_fetches prompt net p) as Hf.
      rewrite Hc in Hf. rewrite (Hf Hin). exact Hb.
  - destruct (click_succeeded _ _ _ Ho) as (prompt & v & Hb & Hc & _).
    intros Hin. pose proof (callGeminiAPI_fetches prompt net p) as Hf.
    rewrite Hc in Hf. rewrite (Hf Hin). exact Hb.
Qed.

Lemma exclusion_set_elem deck x :
  x ∈ exclusion_set deck <-> exists p, p ∈ deck /\ learning p = x.
Proof.
  unfold exclusion_set, learningPhrasesOnly.
  induction deck as [|q deck IH]; cbn.
  - split; [set_solver|]. intros (p & Hp & _). inversion Hp.
  - rewrite elem_of_union, elem_of_singleton, IH. split.
    + intros [->|(p & Hp & <-)]; [exists q|exists p]; split; auto; constructor; auto.
    + intros (p & Hp & <-). inversion Hp; subst; [left; auto|right; eauto].
Qed.

End GenerateFacts.

(** ** The session *)

Module SessionFacts.
Import GenerationClient Generate Session.

Ltac unfold_handlers :=
  unfold dispatch, uncaught, Deck.showNextPhrase, Deck.showPreviousPhrase,
    Deck.displayCurrentPhrase, Deck.current, Speech.speakText,
    Speech.loadVoices, Speech.voiceschanged in *.

(** Events other than a click on the generate button and a run of the
    interval leave the deck's phrases, the language, the timers and the
    button alone. *)
Lemma dispatch_same_controls ev s :
  is_generate ev = false -> is_interval ev = false ->
  same_controls s (fst (dispatch ev s)).
Proof.
  destruct ev; try discriminate; intros _ _;
    unfold same_controls; unfold_handlers;
    repeat case_match; simplify_eq; cbn; auto.
Qed.

(** What a click on the generate button does to the controls. *)
Lemma click_controls net now s :
  let r := click net now s in
  match outcome_of r with
  | Rejected =>
      phrasesData (state_of r) = phrasesData s
      /\ currentPhraseIndex (state_of r) = currentPhraseIndex s
      /\ host (state_of r) = host s
      /\ timerInterval (state_of r) = timerInterval s
      /\ generateBtn_disabled (page (state_of r)) = generateBtn_disabled (page s)
  | Failed _ =>
      phrasesData (state_of r) = phrasesData s
      /\ currentPhraseIndex (state_of r) = 0
      /\ host (state_of r) = host s
      /\ timerInterval (state_of r) = timerInterval s
      /\ generateBtn_disabled (page (state_of r)) = true
  | Succeeded =>
      currentPhraseIndex (state_of r) = 0
      /\ intervals (host (state_of r))
         = intervals (host s) ++ [(next_handle (host s), now + WAIT_TIME * 1000)]
      /\ timerInterval (state_of r) = Some (next_handle (host s))
      /\ generateBtn_disabled (page (state_of r)) = true
  end.
Proof.
  intros r. subst r. destruct (outcome_of (click net now s)) eqn:Ho.
  - destruct (GenerateFacts.click_rejected _ _ _ Ho) as [_ [msg ->]].
    cbn. auto.
  - destruct (GenerateFacts.click_failed _ _ _ _ Ho) as [-> _]. cbn. auto.
  - destruct (GenerateFacts.click_succeeded _ _ _ Ho) as (prompt & v & _ & _ & ->).
    set (s1 := set_phrasesData _ _).
    assert (Hh : host (Deck.displayCurrentPhrase s1).1 = host s
                 /\ generateBtn_disabled (page (Deck.displayCurrentPhrase s1).1) = true).
    { unfold Deck.displayCurrentPhrase. repeat case_match; cbn; auto. }
    destruct Hh as [Hh Hb].
    destruct (DeckFacts.displayCurrentPhrase_deck s1) as [_ Hi].
    cbn in Hi |- *. rewrite Hh. auto.
Qed.

(** The timer discipline holds along every session. *)
Lemma dispatch_timer_discipline ev s :
  timer_discipline s -> timer_discipline (fst (dispatch ev s)).
Proof.
  intros Hd.
  destruct (is_generate ev) eqn:Hg; [|destruct (is_interval ev) eqn:Hi].
  - destruct ev; try discriminate. cbn [dispatch].
    destruct (generateBtn_disabled (page s)) eqn:Hb; [exact Hd|].
    assert (Hidle : idle s).
    { destruct Hd as [Hd|(h & e & _ & _ & Hd)]; [exact Hd|congruence]. }
    pose proof (click_controls net now s) as Hc. cbn zeta in Hc.
    unfold outcome_of, state_of in Hc.
    destruct (click net now s) as [[s' tr] o]. cbn in Hc |- *.
    destruct o.
    + left. unfold idle. destruct Hc as (_ & _ & -> & _). exact Hidle.
    + left. unfold idle. destruct Hc as (_ & _ & -> & _). exact Hidle.
    + right. destruct Hc as (_ & Hint & Ht & Hb').
      rewrite Hidle in Hint. eauto.
  - destruct ev; try discriminate. cbn [dispatch fst].
    unfold Cooldown.fire, Cooldown.live.
    destruct Hd as [Hd|(h & e & Hint & Ht & Hb)].
    + rewrite Hd. cbn. left. exact Hd.
    + rewrite Hint. cbn. destruct (Nat.eqb h handle) eqn:Hh; cbn.
      * unfold Cooldown.interval_callback.
        destruct (Cooldown.expired e now); [|right; eauto].
        left. unfold idle. rewrite Ht. cbn. rewrite Hint. cbn.
        rewrite Nat.eqb_refl. reflexivity.
      * right. eauto.
  - destruct (dispatch_same_controls ev s Hg Hi) as (_ & _ & Ht & Hint & Hb).
    destruct Hd as [Hd|(h & e & Hd & Ht' & Hb')].
    + left. unfold idle in *. congruence.
    + right. exists h, e. repeat split; congruence.
Qed.

Lemma run_cons ev evs s :
  run (ev :: evs) s
  = (fst (run evs (fst (dispatch ev s))),
     snd (dispatch ev s) ++ snd (run evs (fst (dispatch ev s)))).
Proof.
  cbn [run]. destruct (dispatch ev s) as [s1 tr1]. cbn.
  destruct (run evs s1). reflexivity.
Qed.

(** A property that every event preserves holds after every run. *)
Lemma run_preserves (P : State -> Prop) :
  (forall ev s, P s -> P (fst (dispatch ev s))) ->
  forall evs s, P s -> P (fst (run evs s)).
Proof.
  intros Hstep evs. induction evs as [|ev evs IH]; intros s Hs; [exact Hs|].
  rewrite run_cons. cbn [fst]. apply IH, Hstep, Hs.
Qed.

Lemma reachable_timer_discipline s : reachable s -> timer_discipline s.
Proof.
  intros (f & evs & <-). apply run_preserves.
  - apply dispatch_timer_discipline.
  - left. reflexivity.
Qed.

(** While the results are hidden, as they are from the start of a
    regeneration to its success, the arrow keys do nothing. *)
Lemma keydown_while_hidden key s :
  outputContainer_display (page s) <> DisplayBlock ->
  dispatch (KeyDown key) s = (s, []).
Proof.
  intros H. cbn [dispatch].
  destruct (outputContainer_display (page s)); congruence.
Qed.

(** With the button disabled and no interval live, no event changes
    either: a click is not delivered and there is no callback to run. *)
Lemma dispatch_stuck ev s :
  generateBtn_disabled (page s) = true /\ idle s ->
  generateBtn_disabled (page (fst (dispatch ev s))) = true
  /\ idle (fst (dispatch ev s)).
Proof.
  intros [Hb Hidle].
  destruct (is_generate ev) eqn:Hg; [|destruct (is_interval ev) eqn:Hi].
  - destruct ev; try discriminate. cbn [dispatch]. rewrite Hb. auto.
  - destruct ev; try discriminate. cbn [dispatch fst].
    unfold Cooldown.fire, Cooldown.live. rewrite Hidle. cbn. auto.
  - destruct (dispatch_same_controls ev s Hg Hi) as (_ & _ & _ & Hint & Hb').
    unfold idle in *. split; congruence.
Qed.

(** C2, what the code does. When a regeneration fails, the handler leaves
    the generate button disabled and starts no timer. In a session, where
    the click found no timer pending, nothing is then left to enable the
    button: after every further sequence of events it is still disabled,
    and a click on it is not delivered. The failure is not recovered,
    although the notice asks to try again. *)
Theorem failed_regeneration_disables_button_for_good
    (net : nat -> FetchOutcome) (now : Z) (s : State) (e : Error) :
  reachable s -> can_regenerate s ->
  outcome_of (click net now s) = Failed e ->
  let s' := state_of (click net now s) in
  errorMessage_textContent (page s')
    = "Sorry, something went wrong. Please try again."
  /\ generateBtn_disabled (page s') = true
  /\ idle s'
  /\ forall evs,
       generateBtn_disabled (page (fst (run evs s'))) = true
       /\ forall net' now',
            dispatch (ClickGenerate net' now') (fst (run evs s'))
            = (fst (run evs s'), []).
Proof.
  intros Hr Hen Ho s'.
  assert (Hidle : idle s).
  { destruct (reachable_timer_discipline s Hr) as [H|(h & e' & _ & _ & H)];
      [exact H|]. unfold can_regenerate in Hen. congruence. }
  pose proof (click_controls net now s) as Hc. cbn zeta in Hc.
  rewrite Ho in Hc. destruct Hc as (_ & _ & Hh & _ & Hb).
  assert (Hmsg : errorMessage_textContent (page s')
                 = "Sorry, something went wrong. Please try again.").
  { subst s'. destruct (GenerateFacts.click_failed _ _ _ _ Ho) as [-> _].
    reflexivity. }
  assert (Hstuck : generateBtn_disabled (page s') = true /\ idle s').
  { split; [exact Hb|]. unfold idle. subst s'. rewrite Hh. exact Hidle. }
  split; [exact Hmsg|]. split; [apply Hstuck|]. split; [apply Hstuck|].
  intros evs.
  pose proof (run_preserves
                (fun x => generateBtn_disabled (page x) = true /\ idle x)
                dispatch_stuck evs s' Hstuck) as [Hb' _].
  split; [exact Hb'|]. intros net' now'. cbn [dispatch]. rewrite Hb'.
  reflexivity.
Qed.

Lemma dispatch_learningLangCode ev s :
  is_generate ev = false ->
  learningLangCode (fst (dispatch ev s)) = learningLangCode s.
Proof.
  intros Hg. destruct (is_interval ev) eqn:Hi.
  - destruct ev; try discriminate. cbn [dispatch fst].
    unfold Cooldown.fire, Cooldown.interval_callback, Cooldown.clearInterval.
    repeat case_match; reflexivity.
  - apply (dispatch_same_controls ev s Hg Hi).
Qed.

Lemma run_learningLangCode evs :
  forall s, forallb (fun ev => negb (is_generate ev)) evs = true ->
  learningLangCode (fst (run evs s)) = learningLangCode s.
Proof.
  induction evs as [|ev evs IH]; intros s H; [reflexivity|].
  cbn [forallb] in H. apply andb_prop in H as [Hev Hevs].
  rewrite run_cons. cbn [fst]. rewrite IH by exact Hevs.
  apply dispatch_learningLangCode. destruct (is_generate ev); [discriminate|reflexivity].
Qed.

(** Without a learning language ([null] or the empty string), [speakText]
    returns at its guard. *)
Lemma speakText_without_language pf text s :
  truthy_opt (learningLangCode s) = false ->
  Speech.speakText pf text s = (s, [ConsoleError "No learning language code set."]).
Proof.
  unfold Speech.speakText, truthy_opt.
  destruct (learningLangCode s) as [code|]; [|reflexivity].
  intros ->. reflexivity.
Qed.

(** C10. Before the first click on the generate button, whatever else
    happened in the session, [learningLangCode] is still [null] and
    [speakText] does nothing for any text on any platform: it returns the
    state it was given (so no notice is shown and no variable changes) and
    its only trace is the console message of its guard, no utterance. *)
Theorem speak_before_first_regeneration
    (f : Form) (evs : list Event) (pf : Speech.Platform) (text : string) :
  forallb (fun ev => negb (is_generate ev)) evs = true ->
  let s := fst (run evs (initial_state f)) in
  learningLangCode s = None
  /\ Speech.speakText pf text s
     = (s, [ConsoleError "No learning language code set."])
  /\ List.filter Speech.is_speech (snd (Speech.speakText pf text s)) = [].
Proof.
  intros Hevs s.
  assert (Hl : learningLangCode s = None).
  { subst s. rewrite run_learningLangCode by exact Hevs. reflexivity. }
  assert (Hs : Speech.speakText pf text s
               = (s, [ConsoleError "No learning language code set."])).
  { apply speakText_without_language. rewrite Hl. reflexivity. }
  rewrite Hs. auto.
Qed.

(** What an event does to the deck: a click on the generate button apart,
    the phrases stay and the cursor moves by at most one step, forward
    only below the last phrase and backward only above the first. *)
Lemma dispatch_deck ev s :
  is_generate ev = false ->
  phrasesData (fst (dispatch ev s)) = phrasesData s
  /\ (currentPhraseIndex (fst (dispatch ev s)) = currentPhraseIndex s
      \/ (currentPhraseIndex s < js_length (phrasesData s) - 1
          /\ currentPhraseIndex (fst (dispatch ev s)) = currentPhraseIndex s + 1)
      \/ (currentPhraseIndex s > 0
          /\ currentPhraseIndex (fst (dispatch ev s)) = currentPhraseIndex s - 1)).
Proof.
  intros Hg. destruct ev; try discriminate; unfold_handlers;
    unfold Cooldown.fire, Cooldown.interval_callback, Cooldown.clearInterval;
    repeat case_match; simplify_eq; cbn; split; auto;
    try (right; left; split; [lia|reflexivity]);
    try (right; right; split; [lia|reflexivity]).
Qed.

Lemma click_invariant net now s :
  Deck.invariant s -> Deck.invariant (state_of (click net now s)).
Proof.
  intros Hinv. pose proof (click_controls net now s) as Hc. cbn zeta in Hc.
  unfold Deck.invariant, js_length in *.
  destruct (outcome_of (click net now s)).
  - destruct Hc as (-> & -> & _). exact Hinv.
  - destruct Hc as (-> & -> & _). intros Hne.
    destruct (phrasesData s); [congruence|cbn; lia].
  - destruct Hc as (-> & _). clear Hinv. intros Hne.
    destruct (phrasesData (state_of (click net now s))); [congruence|cbn; lia].
Qed.

Lemma dispatch_invariant ev s :
  Deck.invariant s -> Deck.invariant (fst (dispatch ev s)).
Proof.
  intros Hinv. destruct (is_generate ev) eqn:Hg.
  - destruct ev; try discriminate. cbn [dispatch].
    destruct (generateBtn_disabled (page s)); [exact Hinv|].
    pose proof (click_invariant net now s Hinv) as H. unfold state_of in H.
    destruct (click net now s) as [[s' tr] o]. exact H.
  - destruct (dispatch_deck ev s Hg) as [Hp Hi].
    unfold Deck.invariant in *. rewrite Hp. intros Hne.
    specialize (Hinv Hne). lia.
Qed.

End SessionFacts.

(** ** The cooldown timer *)

Module CooldownFacts.
Import Cooldown Session.

(** The expiry branch is taken from one second before [endTime] on. *)
Lemma expired_iff endTime now :
  expired endTime now = true <-> endTime - 1000 < now.
Proof.
  unfold expired, timeLeft. rewrite Z.leb_le. split; intros H.
  - destruct (Z.lt_ge_cases (endTime - 1000) now) as [|Hge]; [assumption|].
    assert (1 <= (endTime - now) / 1000); [|lia].
    apply Z.div_le_lower_bound; lia.
  - assert ((endTime - now) / 1000 < 1); [|lia].
    apply Z.div_lt_upper_bound; lia.
Qed.

Lemma fire_all_app h a b s :
  fire_all h (a ++ b) s
  = (fst (fire_all h b (fst (fire_all h a s))),
     (snd (fire_all h a s) + snd (fire_all h b (fst (fire_all h a s))))%nat).
Proof.
  revert s. induction a as [|t a IH]; intros s; cbn [fire_all app fst snd].
  - destruct (fire_all h b s). reflexivity.
  - rewrite IH. destruct (fire_all h a (fire h t s)) as [s1 n1].
    cbn [fst snd]. f_equal. lia.
Qed.

(** An interval that is not live is never run. *)
Lemma fire_all_dead h ticks s :
  live h s = None -> fire_all h ticks s = (s, O).
Proof.
  intros Hd. induction ticks as [|t ticks IH]; [reflexivity|].
  cbn [fire_all]. unfold notifies, fire. rewrite Hd, IH. reflexivity.
Qed.

(** Before its expiry a run of the callback changes nothing. *)
Lemma fire_all_early h endTime ticks s :
  live h s = Some endTime ->
  Forall (fun t => expired endTime t = false) ticks ->
  fire_all h ticks s = (s, O).
Proof.
  intros Hl Hall. induction Hall as [|t ticks Ht _ IH]; [reflexivity|].
  cbn [fire_all]. unfold notifies, fire, interval_callback.
  rewrite Hl, Ht, IH. reflexivity.
Qed.

(** The expiry of the only live interval, when [timerInterval] holds its
    handle: it notifies, clears itself and enables the button. *)
Lemma fire_expiry h endTime t s :
  intervals (host s) = [(h, endTime)] -> timerInterval s = Some h ->
  expired endTime t = true ->
  notifies h t s = true
  /\ idle (fire h t s)
  /\ can_regenerate (fire h t s).
Proof.
  intros Hi Ht He.
  unfold notifies, fire, live, interval_callback, idle, can_regenerate.
  rewrite Hi. cbn. rewrite Nat.eqb_refl. cbn. rewrite He, Ht. cbn.
  rewrite Hi. cbn. rewrite Nat.eqb_refl. auto.
Qed.

(** C7, as amended. [startTimer] does not cancel an interval that is
    pending; the program never calls it then: along every session at most
    one interval is live, and while one is the generate button is disabled,
    so that the handler that calls [startTimer] cannot run. Started with no
    interval pending, the timer has one window, of handle [h] and end
    [now + 300000]; runs of its callback earlier than one second before
    that end change nothing; the first later run is the one expiry
    notification: it clears the interval and enables the button, and no
    further run of the interval happens. *)
Theorem cooldown_single_window_expires_once :
  (forall s, reachable s -> timer_discipline s)
  /\ forall (now : Z) (s : State), idle s ->
       let s1 := startTimer now s in
       let h := next_handle (host s) in
       let endTime := now + WAIT_TIME * 1000 in
       intervals (host s1) = [(h, endTime)]
       /\ timerInterval s1 = Some h
       /\ forall before t after,
            Forall (fun t' => t' <= endTime - 1000) before ->
            endTime - 1000 < t ->
            fire_all h before s1 = (s1, O)
            /\ snd (fire_all h (before ++ t :: after) s1) = 1%nat
            /\ idle (fst (fire_all h (before ++ t :: after) s1))
            /\ can_regenerate (fst (fire_all h (before ++ t :: after) s1)).
Proof.
  split; [exact SessionFacts.reachable_timer_discipline|].
  intros now s Hidle s1 h endTime.
  assert (Hi : intervals (host s1) = [(h, endTime)]).
  { subst s1. unfold startTimer, setInterval. cbn. rewrite Hidle. reflexivity. }
  assert (Ht : timerInterval s1 = Some h) by reflexivity.
  split; [exact Hi|]. split; [exact Ht|].
  intros before t after Hb Hexp.
  assert (Hl : live h s1 = Some endTime).
  { unfold live. rewrite Hi. cbn. rewrite Nat.eqb_refl. reflexivity. }
  assert (Hearly : fire_all h before s1 = (s1, O)).
  { apply (fire_all_early h endTime); [exact Hl|].
    eapply Forall_impl; [exact Hb|]. cbn. intros t' Ht'.
    destruct (expired endTime t') eqn:E; [|reflexivity].
    apply expired_iff in E. lia. }
  split; [exact Hearly|].
  rewrite fire_all_app, Hearly. cbn [fst snd fire_all].
  destruct (fire_expiry h endTime t s1 Hi Ht) as (Hn & Hidle' & Hen).
  { apply expired_iff. exact Hexp. }
  rewrite Hn.
  rewrite (fire_all_dead h after (fire h t s1)).
  2: { unfold live. rewrite Hidle'. reflexivity. }
  cbn. auto.
Qed.

End CooldownFacts.

(** ** Speech dispatch *)

Module SpeechFacts.
Import Speech.

(** [find] returns the first voice that passes the predicate. *)
Lemma find_voice_first code vs v :
  find_voice code vs = Some v ->
  matches code v = true
  /\ exists before after,
       vs = before ++ v :: after
       /\ Forall (fun u => matches code u = false) before.
Proof.
  unfold find_voice. induction vs as [|u vs IH]; [discriminate|].
  cbn [List.find]. destruct (matches code u) eqn:Hu.
  - intros [= ->]. split; [exact Hu|]. exists [], vs. auto.
  - intros H. destruct (IH H) as (Hm & before & after & -> & Hall).
    split; [exact Hm|]. exists (u :: before), after. auto.
Qed.

(** No voice is selected exactly when none passes the predicate. *)
Lemma find_voice_none code vs :
  find_voice code vs = None <-> Forall (fun u => matches code u = false) vs.
Proof.
  unfold find_voice. induction vs as [|u vs IH]; cbn [List.find].
  - split; auto.
  - destruct (matches code u) eqn:Hu.
    + split; [discriminate|]. intros H. inversion H. congruence.
    + rewrite IH. split; [auto|]. intros H. inversion H. assumption.
Qed.

(** Without an exact match in the catalog, the selected voice is the
    first that shares the two leading characters. *)
Lemma find_voice_without_exact code vs :
  Forall (fun u => lang u <> code) vs ->
  find_voice code vs
  = List.find (fun v => startsWith (lang v) (substring_0_2 code)) vs.
Proof.
  unfold find_voice. induction 1 as [|u vs Hu _ IH]; [reflexivity|].
  cbn [List.find]. unfold matches at 1.
  destruct (String.eqb_spec (lang u) code); [contradiction|].
  cbn. rewrite IH. reflexivity.
Qed.

(** C8, what the code does. [voices.find] tests one predicate, exact or
    same two leading characters, and returns the first voice that passes:
    a voice that only shares the primary subtag wins over an exact match
    listed after it. For a learner of en-US on a catalog that lists en-GB
    before en-US, a click on the phrase is spoken with the en-GB voice. *)
Theorem earlier_subtag_match_beats_exact_match :
  voices Sample.learning_english = [Sample.en_GB; Sample.en_US]
  /\ learningLangCode Sample.learning_english = Some "en-US"
  /\ find_voice "en-US" [Sample.en_GB; Sample.en_US] = Some Sample.en_GB
  /\ snd (Session.dispatch
            (Session.ClickLearningPhrase (Sample.platform [Sample.en_GB; Sample.en_US]))
            Sample.learning_english)
     = [SpeechSpeak "Hello" "en-US" (Some Sample.en_GB)].
Proof. vm_compute. repeat split. Qed.

End SpeechFacts.

(** ** The properties at sample sessions *)

Module Checks.
Import GenerationClient Generate Session.

(** C1 as stated fails: with the cursor on the second phrase and the
    network down, the click fails and leaves the cursor on the first. *)
Lemma failed_regeneration_resets_cursor :
  outcome_of (click Sample.net_down 0 Sample.browsing) = Failed Sample.offline
  /\ currentPhraseIndex Sample.browsing = 1
  /\ currentPhraseIndex (state_of (click Sample.net_down 0 Sample.browsing))
     <> currentPhraseIndex Sample.browsing.
Proof. vm_compute. repeat split. discriminate. Qed.

Lemma failed_regeneration_disables_button_browsing :
  generateBtn_disabled
    (page (state_of (click Sample.net_down 0 Sample.browsing))) = true
  /\ forall evs,
       generateBtn_disabled
         (page (fst (run evs (state_of (click Sample.net_down 0 Sample.browsing)))))
       = true.
Proof.
  pose proof (SessionFacts.failed_regeneration_disables_button_for_good
                Sample.net_down 0 Sample.browsing Sample.offline) as H.
  cbv zeta in H. destruct H as (_ & Hb & _ & Hevs).
  - exists Sample.en_es, Sample.browsing_events.
    unfold Sample.browsing. reflexivity.
  - vm_compute. reflexivity.
  - vm_compute. reflexivity.
  - split; [exact Hb|]. intros evs. apply Hevs.
Defined.


Lemma navigation_ends_without_wrap_fresh :
  currentPhraseIndex (Deck.repeat_op Deck.showNextPhrase 2 Sample.fresh) = 2
  /\ forall k,
       Deck.repeat_op Deck.showNextPhrase k
         (Deck.repeat_op Deck.showNextPhrase 2 Sample.fresh)
       = Deck.repeat_op Deck.showNextPhrase 2 Sample.fresh.
Proof.
  pose proof (DeckFacts.navigation_ends_without_wrap Sample.fresh 3) as H.
  cbv zeta in H. destruct H as [H _].
  - vm_compute. reflexivity.
  - lia.
  - destruct H as (Hi & _ & _ & Hk).
    + vm_compute. reflexivity.
    + split; [exact Hi|exact Hk].
Defined.

(** C7 as stated fails: a second [startTimer] 100 s after the first
    leaves both intervals live; the first window's expiry still fires, at
    its own end; it clears the second interval instead of its own, and
    fires again at every later run. *)
Lemma restart_stacks_windows :
  intervals (host (Cooldown.startTimer 100000
                     (Cooldown.startTimer 0 (initial_state Sample.en_es))))
    = [(1%nat, 300000); (2%nat, 400000)]
  /\ Cooldown.notifies 1 300000
       (Cooldown.startTimer 100000
          (Cooldown.startTimer 0 (initial_state Sample.en_es))) = true
  /\ intervals (host (Cooldown.fire 1 300000
                        (Cooldown.startTimer 100000
                           (Cooldown.startTimer 0 (initial_state Sample.en_es)))))
     = [(1%nat, 300000)]
  /\ snd (Cooldown.fire_all 1 [300000; 301000; 302000]
            (Cooldown.startTimer 100000
               (Cooldown.startTimer 0 (initial_state Sample.en_es)))) = 3%nat.
Proof. vm_compute. repeat split. Qed.

Lemma cooldown_expires_once_initial :
  snd (Cooldown.fire_all 1 ([1000; 2000; 299000] ++ 299001 :: [300000; 301000])
         (Cooldown.startTimer 0 (initial_state Sample.en_es))) = 1%nat.
Proof.
  pose proof (proj2 CooldownFacts.cooldown_single_window_expires_once
                0 (initial_state Sample.en_es)) as H.
  cbv zeta in H. destruct H as (_ & _ & H); [reflexivity|].
  destruct (H [1000; 2000; 299000] 299001 [300000; 301000]) as (_ & Hn & _).
  - repeat constructor; vm_compute; discriminate.
  - vm_compute. reflexivity.
  - exact Hn.
Defined.

Lemma speak_on_load_is_noop :
  Speech.speakText (Sample.platform [Sample.es_ES]) "Hola"
    (fst (run [WindowLoad (Sample.platform [Sample.es_ES]); ClickNext;
               KeyDown "ArrowRight"] (initial_state Sample.en_es)))
  = (fst (run [WindowLoad (Sample.platform [Sample.es_ES]); ClickNext;
               KeyDown "ArrowRight"] (initial_state Sample.en_es)),
     [ConsoleError "No learning language code set."]).
Proof.
  pose proof (SessionFacts.speak_before_first_regeneration Sample.en_es
                [WindowLoad (Sample.platform [Sample.es_ES]); ClickNext;
                 KeyDown "ArrowRight"]
                (Sample.platform [Sample.es_ES]) "Hola") as H.
  cbv zeta in H. destruct H as (_ & H & _); [reflexivity|exact H].
Defined.

(** The sentence that carries the exclusions, for a deck of two. *)
Example exclusion_sentence_of_browsing :
  excludedPhrases (phrasesData Sample.browsing)
  = "Please ensure none of the new phrases are identical to these: Hola, Adios.".
Proof. vm_compute. reflexivity. Qed.

(** End to end: the endpoint answers at the third attempt; the deck then
    holds the phrases of that answer with the cursor on the first, the
    cooldown is pending, and a further click on the generate button is not
    delivered. *)
Example third_attempt_then_blocked :
  phrasesData Sample.fresh = [Sample.hola; Sample.adios; Sample.gracias]
  /\ currentPhraseIndex Sample.fresh = 0
  /\ intervals (host Sample.fresh) = [(1%nat, 300000)]
  /\ dispatch (ClickGenerate (Sample.net_up [Sample.hello]) 1000) Sample.fresh
     = (Sample.fresh, []).
Proof. vm_compute. repeat split. Qed.

End Checks.


(** ** More on speech dispatch *)

Module SpeechMore.
Import Speech Session Surface.

(** The leading two characters of a string are a prefix of it. *)
Lemma substring_0_2_prefix s : String.prefix (substring_0_2 s) s = true.
Proof.
  unfold substring_0_2. destruct s as [|a [|b s]]; cbn.
  - reflexivity.
  - destruct (ascii_dec a a); [reflexivity|congruence].
  - destruct (ascii_dec a a); [|congruence].
    destruct (ascii_dec b b); [|congruence].
    destruct s; reflexivity.
Qed.

(** X1. The predicate of [voices.find] is the test on the two leading
    characters alone: its exact-equality disjunct never changes the answer,
    so for every catalog the voice selected is the first whose tag starts
    with the first two characters of the language code. *)
Theorem voice_match_is_prefix_test (code : string) (vs : list Voice) :
  (forall v, matches code v = startsWith (lang v) (substring_0_2 code))
  /\ find_voice code vs
     = List.find (fun v => startsWith (lang v) (substring_0_2 code)) vs.
Proof.
  assert (H : forall v, matches code v = startsWith (lang v) (substring_0_2 code)).
  { intros v. unfold matches.
    destruct (String.eqb_spec (lang v) code) as [->|_]; [|reflexivity].
    unfold startsWith. rewrite substring_0_2_prefix. reflexivity. }
  split; [exact H|].
  unfold find_voice. induction vs as [|v vs IH]; [reflexivity|].
  cbn [List.find]. rewrite H, IH. reflexivity.
Qed.

(** X2. [speakText] dispatches an utterance exactly when a language is
    set, the platform has speech synthesis, the catalog held by the page is
    not empty and the platform's [speak] does not raise; it then dispatches
    one, for the text it was given, in the language set, with the voice
    [find] selects. Whatever it does, it leaves the deck, the cursor, the
    language, the timers, the form and the generate button alone. *)
Theorem speakText_dispatch (pf : Platform) (text : string) (s : State) :
  let s' := fst (speakText pf text s) in
  let tr := snd (speakText pf text s) in
  ((exists e, In e tr /\ is_speech e = true)
   <-> (exists code, learningLangCode s = Some code /\ truthy code = true
          /\ has_speechSynthesis pf = true /\ voices s <> []
          /\ speak_throws pf = None))
  /\ (List.length (List.filter is_speech tr) <= 1)%nat
  /\ (forall t l v, In (SpeechSpeak t l v) tr ->
        t = text /\ learningLangCode s = Some l
        /\ v = find_voice l (voices s))
  /\ same_controls s s'
  /\ currentPhraseIndex s' = currentPhraseIndex s
  /\ form s' = form s.
Proof.
  intros s' tr. subst s' tr. unfold speakText, loadVoices, same_controls, js_length.
  destruct (learningLangCode s) as [code|] eqn:Hc;
    [destruct (truthy code) eqn:Ht;
     [destruct (has_speechSynthesis pf) eqn:Hs;
      [destruct (voices s) as [|v0 vs] eqn:Hv;
       [destruct (getVoices pf) as [|g0 gs]
       |destruct (speak_throws pf) as [e|] eqn:Hth]|]|]|];
    cbv beta iota delta [Z.of_nat Z.eqb length]; cbn;
    (split; [|split; [lia|split; [|split; [repeat split; congruence|split; reflexivity]]]]).
  all: lazymatch goal with
       | |- forall _ _ _, _ -> _ =>
           intros t' l' v' Hin; repeat (destruct Hin as [Hin|Hin]);
           try contradiction; try discriminate; simplify_eq; auto
       | |- _ <-> _ =>
           split;
           [intros (e' & Hin & He); repeat (destruct Hin as [Hin|Hin]);
            try contradiction; simplify_eq; try discriminate
           |intros (c & H1 & H2 & H3 & H4 & H5); simplify_eq;
            try congruence]
       end.
  - exists code. repeat split; auto; discriminate.
  - eexists. split; [left; reflexivity|reflexivity].
Qed.

(** X3. With a language set and speech synthesis present, a request to
    speak while the page holds no voice speaks nothing: it shows the
    not-ready notice and reloads the catalog from the platform, installing
    the [onvoiceschanged] handler when the platform still has none. If the
    platform had voices by then, the same request made again is spoken,
    with a voice of the reloaded catalog, and the notice is hidden. *)
Theorem speak_retries_voice_loading
    (pf : Platform) (text : string) (s : State) (code : string) :
  learningLangCode s = Some code -> truthy code = true ->
  has_speechSynthesis pf = true -> voices s = [] ->
  let s1 := fst (speakText pf text s) in
  snd (speakText pf text s) = []
  /\ voices s1 = getVoices pf
  /\ ttsMessage_display (page s1) = DisplayBlock
  /\ ttsMessage_textContent (page s1)
     = "Text-to-speech is not ready. Please try clicking the text again shortly."
  /\ (getVoices pf = [] -> onvoiceschanged (host s1) = true)
  /\ (getVoices pf <> [] -> speak_throws pf = None ->
      snd (speakText pf text s1)
        = [SpeechSpeak text code (find_voice code (getVoices pf))]
      /\ ttsMessage_display (page (fst (speakText pf text s1))) = DisplayNone).
Proof.
  intros Hc Ht Hs Hv s1.
  assert (E : speakText pf text s
              = (loadVoices pf
                   (on_page (with_ttsMessage
                      "Text-to-speech is not ready. Please try clicking the text again shortly."
                      DisplayBlock) s), [])).
  { unfold speakText. rewrite Hc, Ht, Hs. unfold js_length. rewrite Hv.
    reflexivity. }
  subst s1. rewrite E. cbn [fst snd]. unfold loadVoices, js_length.
  cbn [voices set_voices].
  destruct (getVoices pf) as [|g gs] eqn:Hg.
  - cbn. split; [|split; [|split; [|split; [|split]]]]; auto.
    intros Hne. congruence.
  - cbv beta iota delta [Z.of_nat Z.eqb length].
    split; [|split; [|split; [|split; [|split]]]]; try reflexivity;
      [discriminate|].
    intros _ Hth. unfold speakText, js_length. cbn. rewrite Hc, Ht, Hs, Hth.
    split; reflexivity.
Qed.

(** The voices of the page change only on load, on a [voiceschanged]
    event with the handler installed, or when a request to speak finds none. *)
Lemma dispatch_voices ev s :
  is_load ev = false ->
  onvoiceschanged (host s) = false -> voices s <> [] ->
  voices (fst (dispatch ev s)) = voices s
  /\ onvoiceschanged (host (fst (dispatch ev s))) = false.
Proof.
  intros Hl Ho Hv.
  destruct (is_generate ev) eqn:Hg; [|destruct (is_interval ev) eqn:Hi].
  - destruct ev; try discriminate. cbn [dispatch].
    destruct (generateBtn_disabled (page s)); [auto|].
    pose proof (SessionFacts.click_controls net now s) as Hc. cbn zeta in Hc.
    destruct (Generate.outcome_of (Generate.click net now s)) eqn:Ho'.
    + destruct (GenerateFacts.click_rejected _ _ _ Ho') as [_ [msg Hs]].
      unfold Generate.state_of in Hs.
      destruct (Generate.click net now s) as [[s' tr] o]. cbn in Hs |- *.
      subst s'. cbn. auto.
    + destruct (GenerateFacts.click_failed _ _ _ _ Ho') as [Hs _].
      unfold Generate.state_of in Hs.
      destruct (Generate.click net now s) as [[s' tr] o]. cbn in Hs |- *.
      subst s'. cbn. auto.
    + destruct (GenerateFacts.click_succeeded _ _ _ Ho') as (prompt & v & _ & _ & Hs).
      unfold Generate.state_of in Hs.
      destruct (Generate.click net now s) as [[s' tr] o]. cbn in Hs |- *.
      subst s'. unfold Cooldown.startTimer, Cooldown.setInterval, Deck.displayCurrentPhrase.
      repeat case_match; simplify_eq; cbn; auto.
  - destruct ev; try discriminate. cbn [dispatch fst].
    unfold Cooldown.fire, Cooldown.interval_callback, Cooldown.clearInterval.
    repeat case_match; cbn; auto.
  - destruct ev; try discriminate; SessionFacts.unfold_handlers;
      unfold js_length; destruct (voices s) eqn:Hv'; try congruence;
      cbv beta iota delta [Z.of_nat Z.eqb length];
      repeat case_match; simplify_eq; cbn; rewrite ?Hv'; auto.
Qed.

(** X4. When the catalog was not empty at load, [loadVoices] installs no
    [onvoiceschanged] handler, and then no later event reloads it: after
    every run without another load the page still holds the voices of the
    load, whatever [voiceschanged] events arrived in between. *)
Theorem voices_fixed_after_first_load
    (pf : Platform) (s : State) (evs : list Event) :
  getVoices pf <> [] ->
  onvoiceschanged (host s) = false ->
  forallb (fun ev => negb (is_load ev)) evs = true ->
  voices (fst (run evs (fst (dispatch (WindowLoad pf) s)))) = getVoices pf.
Proof.
  intros Hg Ho Hevs.
  set (s0 := fst (dispatch (WindowLoad pf) s)).
  assert (H0 : voices s0 = getVoices pf /\ onvoiceschanged (host s0) = false).
  { subst s0. cbn. unfold loadVoices, js_length. cbn.
    destruct (getVoices pf); [congruence|]. cbn. auto. }
  destruct H0 as [Hv0 Ho0]. rewrite <- Hv0.
  assert (Hne : voices s0 <> []) by congruence.
  clearbody s0. clear Hv0 Hg Ho s.
  revert s0 Ho0 Hne. induction evs as [|ev evs IH]; intros s0 Ho0 Hne; [reflexivity|].
  cbn [forallb] in Hevs. apply andb_prop in Hevs as [Hev Hevs].
  rewrite SessionFacts.run_cons. cbn [fst].
  destruct (dispatch_voices ev s0) as [Hv Ho]; auto.
  { destruct (is_load ev); [discriminate|reflexivity]. }
  rewrite IH; auto. congruence.
Qed.

End SpeechMore.



(** ** More on the generate button *)

Module GenerateMore.
Import GenerationClient Generate Session Surface.

Lemma rejects_spec s :
  let s1 := set_learningLangCode (Some (learningLangSelect_value (form s))) s in
  ((negb (truthy (nativeLangSelect_value (form s)))
    || negb (truthy_opt (learningLangCode s1)))%bool = false
   /\ (String.eqb (topicSelect_value (form s1)) "custom"
       && String.eqb (trim (customTopicInput_value (form s1))) "")%bool = false)
  <-> rejects (form s) = false.
Proof.
  cbn. unfold rejects.
  destruct (negb (truthy (nativeLangSelect_value (form s))));
    destruct (negb (truthy (learningLangSelect_value (form s))));
    destruct (String.eqb (topicSelect_value (form s)) "custom"
              && String.eqb (trim (customTopicInput_value (form s))) "")%bool;
    cbn; intuition congruence.
Qed.

(** A click that is not rejected and whose request the client answers. *)
Lemma click_answered net now s prompt v tr :
  rejects (form s) = false ->
  request_of s = inr prompt ->
  callGeminiAPI prompt net = (Returned v, tr) ->
  click net now s
  = (on_page (with_statusMessage DisplayNone)
       (Cooldown.startTimer now
          (on_page (with_outputContainer DisplayBlock)
             (fst (Deck.displayCurrentPhrase
                (set_phrasesData v
                   (prepare (set_learningLangCode
                      (Some (learningLangSelect_value (form s))) s))))))),
     tr, Succeeded).
Proof.
  intros Hr Hb Hc. apply rejects_spec in Hr as [Hr1 Hr2]. cbn zeta in Hr1, Hr2.
  unfold click. rewrite Hr1, Hr2.
  set (s1 := prepare _).
  unfold try_generate. unfold request_of in Hb.
  change (build_prompt (topic_of (form s)) s1 = inr prompt) in Hb.
  change (topic_of (form (set_learningLangCode
            (Some (learningLangSelect_value (form s))) s)))
    with (topic_of (form s)).
  rewrite Hb, Hc.
  destruct (GenerateFacts.build_prompt_inr _ _ _ Hb) as (n & l & Hn & Hl & _).
  pose proof (GenerateFacts.displayCurrentPhrase_no_throw
                (set_phrasesData v s1) n l Hn Hl eq_refl) as Hd.
  destruct (Deck.displayCurrentPhrase (set_phrasesData v s1)) as [s2 o].
  cbn in Hd. subst o. reflexivity.
Qed.

(** A click that is not rejected and whose request the client gives up. *)
Lemma click_given_up net now s prompt e tr :
  rejects (form s) = false ->
  request_of s = inr prompt ->
  callGeminiAPI prompt net = (Threw e, tr) ->
  click net now s
  = (on_page (with_statusMessage DisplayNone)
       (fst (catch_generate
          (prepare (set_learningLangCode
             (Some (learningLangSelect_value (form s))) s)))),
     tr ++ [ConsoleError "Failed to generate or translate phrases:"],
     Failed e).
Proof.
  intros Hr Hb Hc. apply rejects_spec in Hr as [Hr1 Hr2]. cbn zeta in Hr1, Hr2.
  unfold click. rewrite Hr1, Hr2.
  set (s1 := prepare _).
  unfold try_generate. unfold request_of in Hb.
  change (build_prompt (topic_of (form s)) s1 = inr prompt) in Hb.
  change (topic_of (form (set_learningLangCode
            (Some (learningLangSelect_value (form s))) s)))
    with (topic_of (form s)).
  rewrite Hb, Hc. reflexivity.
Qed.

(** A click that is not rejected and finds a language missing. *)
Lemma click_without_language net now s e :
  rejects (form s) = false ->
  request_of s = inl e ->
  click net now s
  = (on_page (with_statusMessage DisplayNone)
       (fst (catch_generate
          (prepare (set_learningLangCode
             (Some (learningLangSelect_value (form s))) s)))),
     [ConsoleError "Failed to generate or translate phrases:"],
     Failed e).
Proof.
  intros Hr Hb. apply rejects_spec in Hr as [Hr1 Hr2]. cbn zeta in Hr1, Hr2.
  unfold click. rewrite Hr1, Hr2.
  set (s1 := prepare _).
  unfold try_generate. unfold request_of in Hb.
  change (build_prompt (topic_of (form s)) s1 = inl e) in Hb.
  change (topic_of (form (set_learningLangCode
            (Some (learningLangSelect_value (form s))) s)))
    with (topic_of (form s)).
  rewrite Hb. reflexivity.
Qed.

Lemma click_when_rejected net now s :
  rejects (form s) = true ->
  outcome_of (click net now s) = Rejected.
Proof.
  intros Hr. unfold click, outcome_of.
  destruct (_ || _)%bool eqn:H1; [reflexivity|].
  destruct (_ && _)%bool eqn:H2; [reflexivity|].
  pose proof (proj1 (rejects_spec s) (conj H1 H2)). congruence.
Qed.

(** X6. A rejected click sends no request and leaves the deck, the cursor,
    the timers, the form, the button, the results and the card as they
    were; it shows the error notice, and it has already overwritten the
    language used for speech with the value of the learning select. *)
Theorem rejected_click_effects (net : nat -> FetchOutcome) (now : Z) (s : State) :
  rejects (form s) = true ->
  let s' := state_of (click net now s) in
  trace_of (click net now s) = []
  /\ learningLangCode s' = Some (learningLangSelect_value (form s))
  /\ errorMessage_display (page s') = DisplayBlock
  /\ phrasesData s' = phrasesData s
  /\ currentPhraseIndex s' = currentPhraseIndex s
  /\ voices s' = voices s
  /\ timerInterval s' = timerInterval s
  /\ host s' = host s
  /\ form s' = form s
  /\ generateBtn_disabled (page s') = generateBtn_disabled (page s)
  /\ outputContainer_display (page s') = outputContainer_display (page s)
  /\ card (page s') = card (page s).
Proof.
  intros Hr s'. subst s'.
  destruct (GenerateFacts.click_rejected net now s (click_when_rejected net now s Hr))
    as [Ht [msg ->]].
  split; [exact Ht|]. cbn. repeat split; reflexivity.
Qed.

(** Every populated option carries a code that is not empty and that the
    table resolves. *)
Lemma offered_known code :
  offered code ->
  truthy code = true /\ exists l, find_language code = Some l.
Proof.
  unfold offered, populateDropdowns. cbn. intros H.
  repeat (destruct H as [<-|H]; [split; [reflexivity|eexists; reflexivity]|]).
  destruct H.
Qed.

Lemma attempts_app tr1 tr2 :
  attempts (tr1 ++ tr2) = (attempts tr1 + attempts tr2)%nat.
Proof. unfold attempts. rewrite List.filter_app, List.length_app. reflexivity. Qed.

(** A call that throws has made its five attempts and its four waits. *)
Lemma callGeminiAPI_threw prompt net e :
  fst (callGeminiAPI prompt net) = Threw e ->
  attempts (snd (callGeminiAPI prompt net)) = 5%nat
  /\ waits (snd (callGeminiAPI prompt net)) = backoff.
Proof.
  rewrite GenerationClientFacts.callGeminiAPI_cases.
  destruct (try_block (net 0%nat));
    [destruct (try_block (net 1%nat));
      [destruct (try_block (net 2%nat));
        [destruct (try_block (net 3%nat));
          [destruct (try_block (net 4%nat))|]|]|]|];
    cbn; intros H; try discriminate. auto.
Qed.


(** X9. The time a call spends waiting is [1000 * (2^(k-1) - 1)] ms for
    its [k] attempts: never more than 15000 ms, and exactly 15000 ms when it
    throws. *)
Theorem total_wait_of_a_call (prompt : string) (net : nat -> FetchOutcome) :
  let tr := snd (callGeminiAPI prompt net) in
  total_wait tr = 1000 * (2 ^ (Z.of_nat (attempts tr) - 1) - 1)
  /\ 0 <= total_wait tr <= 15000
  /\ forall e, fst (callGeminiAPI prompt net) = Threw e -> total_wait tr = 15000.
Proof.
  intros tr. subst tr. rewrite GenerationClientFacts.callGeminiAPI_cases.
  destruct (try_block (net 0%nat));
    [destruct (try_block (net 1%nat));
      [destruct (try_block (net 2%nat));
        [destruct (try_block (net 3%nat));
          [destruct (try_block (net 4%nat))|]|]|]|];
    cbn; (split; [reflexivity|split; [lia|]]); intros e' He;
    try discriminate; reflexivity.
Qed.

End GenerateMore.


(** ** More on the session *)

Module SessionMore.
Import GenerationClient Generate Session Surface.

(** Only a click on the generate button sends requests. *)
Lemma dispatch_no_fetch ev s :
  is_generate ev = false ->
  List.filter is_fetch (snd (dispatch ev s)) = [].
Proof.
  intros Hg. destruct ev; try discriminate; SessionFacts.unfold_handlers;
    repeat case_match; simplify_eq; reflexivity.
Qed.

(** The state of a pending cooldown: the deck [deck], one live interval
    [h] that ends at [endTime], held by [timerInterval], and the button
    disabled. *)
Lemma dispatch_cooling deck h endTime ev s :
  not_later_than (endTime - 1000) ev ->
  phrasesData s = deck /\ intervals (host s) = [(h, endTime)]
  /\ timerInterval s = Some h /\ generateBtn_disabled (page s) = true ->
  (phrasesData (fst (dispatch ev s)) = deck
   /\ intervals (host (fst (dispatch ev s))) = [(h, endTime)]
   /\ timerInterval (fst (dispatch ev s)) = Some h
   /\ generateBtn_disabled (page (fst (dispatch ev s))) = true)
  /\ List.filter is_fetch (snd (dispatch ev s)) = [].
Proof.
  intros Hev (Hp & Hi & Ht & Hb).
  destruct (is_generate ev) eqn:Hg; [|destruct (is_interval ev) eqn:Hint].
  - destruct ev; try discriminate. cbn [dispatch]. rewrite Hb. cbn. auto.
  - destruct ev; try discriminate. cbn [dispatch fst snd]. cbn in Hev.
    split; [|reflexivity].
    unfold Cooldown.fire, Cooldown.live. rewrite Hi. cbn.
    destruct (Nat.eqb h handle); cbn; [|auto].
    unfold Cooldown.interval_callback.
    destruct (Cooldown.expired endTime now) eqn:He; [|auto].
    apply CooldownFacts.expired_iff in He. lia.
  - split; [|apply dispatch_no_fetch, Hg].
    destruct (SessionFacts.dispatch_same_controls ev s Hg Hint)
      as (Hp' & _ & Ht' & Hi' & Hb').
    repeat split; congruence.
Qed.

Lemma run_cooling deck h endTime evs :
  Forall (not_later_than (endTime - 1000)) evs ->
  forall s,
    phrasesData s = deck /\ intervals (host s) = [(h, endTime)]
    /\ timerInterval s = Some h /\ generateBtn_disabled (page s) = true ->
    (phrasesData (fst (run evs s)) = deck
     /\ intervals (host (fst (run evs s))) = [(h, endTime)]
     /\ timerInterval (fst (run evs s)) = Some h
     /\ generateBtn_disabled (page (fst (run evs s))) = true)
    /\ List.filter is_fetch (snd (run evs s)) = [].
Proof.
  induction 1 as [|ev evs Hev _ IH]; intros s K; [cbn; auto|].
  rewrite SessionFacts.run_cons. cbn [fst snd].
  destruct (dispatch_cooling deck h endTime ev s Hev K) as [K' Hf].
  destruct (IH _ K') as [K'' Hf'].
  rewrite List.filter_app, Hf, Hf'. auto.
Qed.

(** X10. After a successful regeneration at time [now], as long as no run
    of the interval comes with a clock later than [now + 299000], nothing
    the page can deliver regenerates: the phrases stay those of that
    regeneration, the generate button stays disabled, the interval stays
    pending, and no request is sent. *)
Theorem no_regeneration_during_cooldown
    (net : nat -> FetchOutcome) (now : Z) (s : State) (evs : list Event) :
  reachable s -> can_regenerate s ->
  outcome_of (click net now s) = Succeeded ->
  Forall (not_later_than (now + 299000)) evs ->
  let s1 := state_of (click net now s) in
  let s2 := fst (run evs s1) in
  phrasesData s2 = phrasesData s1
  /\ generateBtn_disabled (page s2) = true
  /\ intervals (host s2) = [(next_handle (host s), now + 300000)]
  /\ List.filter is_fetch (snd (run evs s1)) = [].
Proof.
  intros Hr Hen Ho Hevs s1 s2.
  assert (Hidle : idle s).
  { destruct (SessionFacts.reachable_timer_discipline s Hr)
      as [H|(h & e' & _ & _ & H)]; [exact H|].
    unfold can_regenerate in Hen. congruence. }
  pose proof (SessionFacts.click_controls net now s) as Hc. cbn zeta in Hc.
  rewrite Ho in Hc. destruct Hc as (_ & Hi & Ht & Hb).
  rewrite Hidle in Hi. cbn in Hi. fold s1 in Hi, Ht, Hb.
  destruct (run_cooling (phrasesData s1) (next_handle (host s)) (now + 300000) evs)
    with (s := s1) as [(H1 & H2 & H3 & H4) H5].
  - eapply Forall_impl; [exact Hevs|]. intros ev Hev.
    destruct ev; cbn in *; auto. lia.
  - auto.
  - subst s2. auto.
Qed.

(** Rendering touches the card only. *)
Lemma displayCurrentPhrase_frame s :
  outputContainer_display (page (fst (Deck.displayCurrentPhrase s)))
    = outputContainer_display (page s)
  /\ form (fst (Deck.displayCurrentPhrase s)) = form s.
Proof.
  unfold Deck.displayCurrentPhrase. repeat case_match; simplify_eq; cbn; auto.
Qed.

(** With both languages in the table and the cursor within the deck,
    rendering leaves the card in step with the cursor. *)
Lemma displayCurrentPhrase_synced s :
  known_form (form s) = true ->
  (phrasesData s <> [] -> 0 <= currentPhraseIndex s < js_length (phrasesData s)) ->
  synced (fst (Deck.displayCurrentPhrase s)).
Proof.
  intros Hk Hb.
  destruct (DeckFacts.displayCurrentPhrase_deck s) as [Hp Hi].
  destruct (displayCurrentPhrase_frame s) as [_ Hf].
  unfold synced. rewrite Hf, Hp. split; [exact Hk|]. intros Hne.
  specialize (Hb Hne). unfold Deck.current. rewrite Hp, Hi.
  unfold Deck.displayCurrentPhrase, known_form in *.
  destruct (js_length (phrasesData s) =? 0) eqn:E.
  { apply Z.eqb_eq in E. lia. }
  unfold js_index in *. destruct (Z.ltb_spec (currentPhraseIndex s) 0); [lia|].
  destruct (phrasesData s !! Z.to_nat (currentPhraseIndex s)) as [p|] eqn:Hl.
  2: { apply lookup_ge_None in Hl. unfold js_length in Hb. lia. }
  exists p. split; [reflexivity|]. cbn [form on_page Deck.on_card set_page].
  destruct (find_language (nativeLangSelect_value (form s))) as [nl|];
    [|discriminate].
  destruct (find_language (learningLangSelect_value (form s))) as [ll|];
    [|discriminate].
  unfold card_shows, Deck.show_learning_phonetics, Deck.show_native_phonetics.
  repeat case_match; cbn; repeat split; reflexivity.
Qed.

(** What [synced] reads. *)
Lemma synced_ext s s' :
  form s' = form s -> phrasesData s' = phrasesData s ->
  currentPhraseIndex s' = currentPhraseIndex s ->
  card (page s') = card (page s) ->
  synced s -> synced s'.
Proof.
  unfold synced, Deck.current. intros -> -> -> ->. auto.
Qed.

(** A step forward or backward keeps the card in step. *)
Lemma showNextPhrase_in_sync s :
  Deck.invariant s -> in_sync s -> in_sync (fst (Deck.showNextPhrase s)).
Proof.
  intros Hinv Hs. unfold Deck.showNextPhrase.
  destruct (Z.ltb_spec (currentPhraseIndex s) (js_length (phrasesData s) - 1));
    [|exact Hs].
  set (s1 := set_currentPhraseIndex (currentPhraseIndex s + 1) s).
  intros Hv. unfold visible in Hv.
  rewrite (proj1 (displayCurrentPhrase_frame s1)) in Hv.
  destruct (Hs Hv) as [Hk _].
  apply displayCurrentPhrase_synced; [exact Hk|].
  cbn. intros Hne. specialize (Hinv Hne). lia.
Qed.

Lemma showPreviousPhrase_in_sync s :
  Deck.invariant s -> in_sync s -> in_sync (fst (Deck.showPreviousPhrase s)).
Proof.
  intros Hinv Hs. unfold Deck.showPreviousPhrase.
  destruct (Z.gtb_spec (currentPhraseIndex s) 0); [|exact Hs].
  set (s1 := set_currentPhraseIndex (currentPhraseIndex s - 1) s).
  intros Hv. unfold visible in Hv.
  rewrite (proj1 (displayCurrentPhrase_frame s1)) in Hv.
  destruct (Hs Hv) as [Hk _].
  apply displayCurrentPhrase_synced; [exact Hk|].
  cbn. intros Hne. specialize (Hinv Hne). lia.
Qed.

(** A click on the generate button keeps the card in step: it hides the
    results when it fails and renders the first phrase when it succeeds. *)
Lemma click_in_sync net now s :
  in_sync s -> in_sync (state_of (click net now s)).
Proof.
  intros Hs. destruct (rejects (form s)) eqn:Hr.
  - destruct (GenerateFacts.click_rejected net now s
                (GenerateMore.click_when_rejected net now s Hr)) as [_ [msg ->]].
    intros Hv. apply (synced_ext s); try reflexivity. apply Hs. exact Hv.
  - destruct (request_of s) as [e|prompt] eqn:Hb.
    { rewrite (GenerateMore.click_without_language net now s e Hr Hb).
      intros Hv. discriminate Hv. }
    destruct (callGeminiAPI prompt net) as [[v|e] tr] eqn:Hc.
    2: { rewrite (GenerateMore.click_given_up net now s prompt e tr Hr Hb Hc).
         intros Hv. discriminate Hv. }
    rewrite (GenerateMore.click_answered net now s prompt v tr Hr Hb Hc).
    intros _. unfold state_of. cbn [fst].
    set (s1 := set_phrasesData v _).
    apply (synced_ext (fst (Deck.displayCurrentPhrase s1))); try reflexivity.
    apply displayCurrentPhrase_synced.
    + destruct (GenerateFacts.build_prompt_inr _ _ _ Hb) as (n & l & Hn & Hl & _).
      change (form s1) with (form s). unfold known_form.
      rewrite Hn, Hl. reflexivity.
    + cbn. unfold js_length. destruct v; [congruence|]. intros _. cbn. lia.
Qed.

(** The other events leave what is on screen alone. *)
Lemma dispatch_same_view ev s :
  match ev with
  | WindowLoad _ | VoicesChanged _ | ClickLearningPhrase _
  | ClickWordTab _ _ | IntervalFires _ _ => True
  | _ => False
  end ->
  let s' := fst (dispatch ev s) in
  form s' = form s /\ phrasesData s' = phrasesData s
  /\ currentPhraseIndex s' = currentPhraseIndex s
  /\ card (page s') = card (page s)
  /\ outputContainer_display (page s') = outputContainer_display (page s).
Proof.
  destruct ev; try contradiction; intros _; SessionFacts.unfold_handlers;
    unfold Cooldown.fire, Cooldown.interval_callback, Cooldown.clearInterval;
    repeat case_match; simplify_eq; cbn; auto.
Qed.

Lemma dispatch_in_sync ev s :
  keeps_known ev -> Deck.invariant s -> in_sync s ->
  in_sync (fst (dispatch ev s)).
Proof.
  intros Hk Hinv Hs.
  destruct ev.
  1, 2, 8, 9, 10:
    match goal with
    | |- in_sync (fst (dispatch ?ev ?s0)) =>
        destruct (dispatch_same_view ev s0 I) as (Hf & Hp & Hi & Hc & Ho);
        intros Hv; unfold visible in Hv; rewrite Ho in Hv;
        apply (synced_ext s0); auto
    end.
  - (* FormChange *)
    cbn in Hk |- *. intros Hv. destruct (Hs Hv) as [_ Hcard].
    split; [exact Hk|exact Hcard].
  - (* ClickGenerate *)
    cbn [dispatch]. destruct (generateBtn_disabled (page s)); [exact Hs|].
    pose proof (click_in_sync net now s Hs) as H. unfold state_of in H.
    destruct (click net now s) as [[s' tr] o]. exact H.
  - (* ClickPrev *)
    cbn [dispatch]. destruct (prevBtn_disabled (card (page s))); [exact Hs|].
    pose proof (showPreviousPhrase_in_sync s Hinv Hs) as H.
    destruct (Deck.showPreviousPhrase s) as [s' [e|]]; exact H.
  - (* ClickNext *)
    cbn [dispatch]. destruct (nextBtn_disabled (card (page s))); [exact Hs|].
    pose proof (showNextPhrase_in_sync s Hinv Hs) as H.
    destruct (Deck.showNextPhrase s) as [s' [e|]]; exact H.
  - (* KeyDown *)
    cbn [dispatch]. destruct (outputContainer_display (page s)); try exact Hs.
    destruct (String.eqb key "ArrowLeft").
    + pose proof (showPreviousPhrase_in_sync s Hinv Hs) as H.
      destruct (Deck.showPreviousPhrase s) as [s' [e|]]; exact H.
    + destruct (String.eqb key "ArrowRight"); [|exact Hs].
      pose proof (showNextPhrase_in_sync s Hinv Hs) as H.
      destruct (Deck.showNextPhrase s) as [s' [e|]]; exact H.
Qed.

(** The deck invariant and the card in step, along every session in which
    the form keeps both of its languages in the table. *)
Lemma run_in_sync f evs :
  Forall keeps_known evs ->
  Deck.invariant (fst (run evs (initial_state f)))
  /\ in_sync (fst (run evs (initial_state f))).
Proof.
  intros Hevs.
  assert (H0 : Deck.invariant (initial_state f) /\ in_sync (initial_state f)).
  { split; [intros H; contradiction H; reflexivity|].
    intros Hv. discriminate Hv. }
  revert H0. generalize (initial_state f).
  induction Hevs as [|ev evs Hev _ IH]; intros s0 [Hinv Hs]; [auto|].
  rewrite SessionFacts.run_cons. cbn [fst]. apply IH. split.
  - apply SessionFacts.dispatch_invariant, Hinv.
  - apply dispatch_in_sync; assumption.
Qed.

(** X11. What is on screen is the phrase under the cursor. Along every
    session in which the form keeps both of its languages in the table,
    whenever the results are on screen and the deck is not empty, the card
    shows the two texts and the word tabs of the phrase at the cursor, the
    counter reads cursor+1 / total, and the backward and forward buttons are
    disabled exactly at the first and at the last phrase. *)
Theorem screen_follows_cursor (f : Form) (evs : list Event) :
  Forall keeps_known evs ->
  let s := fst (run evs (initial_state f)) in
  visible s -> phrasesData s <> [] ->
  exists p,
    Deck.current s = Some p
    /\ nativePhraseEl (card (page s)) = native p
    /\ learningPhraseTextEl (card (page s)) = learning p
    /\ wordByWordContainer (card (page s)) = word_by_word_learning p
    /\ phraseCounter (card (page s))
       = (currentPhraseIndex s + 1, js_length (phrasesData s))
    /\ prevBtn_disabled (card (page s)) = (currentPhraseIndex s =? 0)
    /\ nextBtn_disabled (card (page s))
       = (currentPhraseIndex s =? js_length (phrasesData s) - 1).
Proof.
  intros Hevs s Hv Hne.
  destruct (run_in_sync f evs Hevs) as [_ Hs]. fold s in Hs.
  destruct (Hs Hv) as [_ Hc]. destruct (Hc Hne) as (p & Hcur & Hshow).
  exists p. split; [exact Hcur|exact Hshow].
Qed.

(** X13. What is spoken is what is shown. Along such a session, with the
    results on screen and a deck that is not empty, a click on the learning
    phrase asks to speak the learning text the card shows, and a click on
    the word tab at position [i] asks to speak the original word of the
    [i]-th alignment of the phrase under the cursor, not its transliteration
    nor its translation. *)
Theorem spoken_is_shown
    (f : Form) (evs : list Event) (pf : Speech.Platform) (i : nat) :
  Forall keeps_known evs ->
  let s := fst (run evs (initial_state f)) in
  visible s -> phrasesData s <> [] ->
  dispatch (ClickLearningPhrase pf) s
    = Speech.speakText pf (learningPhraseTextEl (card (page s))) s
  /\ forall p w,
       Deck.current s = Some p ->
       word_by_word_learning p !! i = Some w ->
       dispatch (ClickWordTab i pf) s = Speech.speakText pf (original w) s.
Proof.
  intros Hevs s Hv Hne.
  destruct (run_in_sync f evs Hevs) as [_ Hs]. fold s in Hs.
  destruct (Hs Hv) as [_ Hc].
  destruct (Hc Hne) as (p & Hcur & Hn & Hl & Hw & _).
  split.
  - cbn [dispatch]. rewrite Hcur, Hl. reflexivity.
  - intros p' w Hp' Hi. cbn [dispatch].
    assert (p' = p) by congruence. subst p'.
    rewrite Hw, Hi. reflexivity.
Qed.

End SessionMore.


(** ** More on the deck *)

Module DeckMore.
Import Deck Surface.

(** Rendering again at another cursor forgets the first rendering: each
    rendering rewrites all it shows, and what it leaves when it raises it
    leaves the same. *)
Lemma displayCurrentPhrase_again s i j p :
  js_index (phrasesData s) i = Some p ->
  fst (displayCurrentPhrase
         (set_currentPhraseIndex i
            (fst (displayCurrentPhrase (set_currentPhraseIndex j s)))))
  = fst (displayCurrentPhrase (set_currentPhraseIndex i s)).
Proof.
  intros Hi.
  unfold displayCurrentPhrase. cbn [phrasesData set_currentPhraseIndex currentPhraseIndex].
  destruct (js_length (phrasesData s) =? 0) eqn:E.
  { cbn. rewrite E. reflexivity. }
  destruct (js_index (phrasesData s) j) as [pj|]; cbn -[find_language js_index].
  2: { rewrite E. reflexivity. }
  destruct (find_language (nativeLangSelect_value (form s))) as [n|] eqn:Hn;
    [destruct (find_language (learningLangSelect_value (form s))) as [l|] eqn:Hl|];
    cbn -[find_language js_index]; rewrite E, Hi;
    cbn -[find_language js_index]; rewrite ?Hn;
    cbn -[find_language js_index]; rewrite ?Hl.
  all: unfold show_learning_phonetics, show_native_phonetics, on_card;
    repeat case_match; reflexivity.
Qed.

Lemma displayCurrentPhrase_here s p :
  current s = Some p ->
  fst (displayCurrentPhrase (set_currentPhraseIndex (currentPhraseIndex s) s))
  = fst (displayCurrentPhrase s).
Proof.
  unfold current, displayCurrentPhrase.
  cbn [phrasesData set_currentPhraseIndex currentPhraseIndex]. intros Hp.
  destruct (js_length (phrasesData s) =? 0) eqn:E.
  { exfalso. unfold js_index, js_length in *.
    destruct (phrasesData s); [|discriminate].
    destruct (currentPhraseIndex s <? 0); [discriminate|].
    rewrite lookup_nil in Hp. discriminate. }
  rewrite Hp. cbn -[find_language]. repeat case_match; reflexivity.
Qed.

(** X12. A step forward that moves, followed by a step backward, leaves
    the state that rendering the phrase under the cursor gives, with the
    cursor where it was; so does a step backward that moves, followed by a
    step forward. *)
Theorem step_there_and_back (s : State) :
  (0 <= currentPhraseIndex s < js_length (phrasesData s) - 1 ->
   fst (showPreviousPhrase (fst (showNextPhrase s)))
   = fst (displayCurrentPhrase s))
  /\ (0 < currentPhraseIndex s < js_length (phrasesData s) ->
      fst (showNextPhrase (fst (showPreviousPhrase s)))
      = fst (displayCurrentPhrase s)).
Proof.
  assert (Hcur : 0 <= currentPhraseIndex s < js_length (phrasesData s) ->
                 exists p, current s = Some p).
  { intros H. unfold current, js_index, js_length in *.
    destruct (Z.ltb_spec (currentPhraseIndex s) 0); [lia|].
    destruct (phrasesData s !! Z.to_nat (currentPhraseIndex s)) eqn:Hl; [eauto|].
    apply lookup_ge_None in Hl. lia. }
  split; intros H.
  - destruct Hcur as [p Hp]; [lia|].
    unfold showNextPhrase.
    destruct (Z.ltb_spec (currentPhraseIndex s) (js_length (phrasesData s) - 1));
      [|lia].
    set (s1 := fst (displayCurrentPhrase _)).
    unfold showPreviousPhrase.
    assert (Hi : currentPhraseIndex s1 = currentPhraseIndex s + 1).
    { subst s1. apply DeckFacts.displayCurrentPhrase_deck. }
    rewrite Hi. destruct (Z.gtb_spec (currentPhraseIndex s + 1) 0); [|lia].
    replace (currentPhraseIndex s + 1 - 1) with (currentPhraseIndex s) by lia.
    subst s1. rewrite (displayCurrentPhrase_again _ _ _ p Hp).
    apply (displayCurrentPhrase_here s p Hp).
  - destruct Hcur as [p Hp]; [lia|].
    unfold showPreviousPhrase.
    destruct (Z.gtb_spec (currentPhraseIndex s) 0); [|lia].
    set (s1 := fst (displayCurrentPhrase _)).
    unfold showNextPhrase.
    assert (Hi : currentPhraseIndex s1 = currentPhraseIndex s - 1
                 /\ phrasesData s1 = phrasesData s).
    { subst s1.
      destruct (DeckFacts.displayCurrentPhrase_deck
                  (set_currentPhraseIndex (currentPhraseIndex s - 1) s)) as [Hp' Hi'].
      split; [exact Hi'|exact Hp']. }
    destruct Hi as [Hi Hp']. rewrite Hi, Hp'.
    destruct (Z.ltb_spec (currentPhraseIndex s - 1) (js_length (phrasesData s) - 1));
      [|lia].
    replace (currentPhraseIndex s - 1 + 1) with (currentPhraseIndex s) by lia.
    subst s1. rewrite (displayCurrentPhrase_again _ _ _ p Hp).
    apply (displayCurrentPhrase_here s p Hp).
Qed.

End DeckMore.


(** ** More on the cooldown timer *)

Module CooldownMore.
Import Cooldown Surface.

(** X14. The seconds left run down with the clock: a later clock never
    gives more of them, and once a run of the callback has taken the expiry
    branch every later run would. The branch is taken from one second
    before the end of the window on, so that the cooldown lasts between 299
    and 300 seconds on the clock of the run; and a clock that is not before
    the start of the window reads at most 300 seconds left. *)
Theorem timeLeft_runs_down (start now later : Z) :
  start <= now -> now <= later ->
  let endTime := start + WAIT_TIME * 1000 in
  timeLeft endTime later <= timeLeft endTime now <= 300
  /\ (expired endTime now = true -> expired endTime later = true)
  /\ (expired endTime now = true <-> start + 299000 < now).
Proof.
  intros Hs Hl endTime. subst endTime. unfold WAIT_TIME.
  assert (Hm : timeLeft (start + 5 * 60 * 1000) later
               <= timeLeft (start + 5 * 60 * 1000) now).
  { unfold timeLeft. apply Z.div_le_mono; lia. }
  assert (Hb : timeLeft (start + 5 * 60 * 1000) now <= 300).
  { unfold timeLeft.
    transitivity ((300 * 1000) / 1000); [apply Z.div_le_mono; lia|].
    rewrite Z.div_mul; lia. }
  split; [lia|]. split.
  - unfold expired. rewrite !Z.leb_le. lia.
  - rewrite CooldownFacts.expired_iff. lia.
Qed.

(** The seconds a window can show. *)
Lemma in_window tl :
  0 < tl <= 300 -> In tl (List.map Z.of_nat (List.seq 1 300)).
Proof.
  intros H. apply List.in_map_iff. exists (Z.to_nat tl). split; [lia|].
  apply List.in_seq. lia.
Qed.

Lemma formattedTime_table :
  List.forallb
    (fun a =>
       (Nat.eqb (String.length (formattedTime a)) 5
        && List.forallb
             (fun b => implb (String.eqb (formattedTime a) (formattedTime b))
                         (a =? b))
             (List.map Z.of_nat (List.seq 1 300)))%bool)
    (List.map Z.of_nat (List.seq 1 300)) = true.
Proof. vm_compute. reflexivity. Qed.

(** X15. Within a window, where the seconds left are between 1 and 300,
    the time the bubble shows has five characters, minutes and seconds both
    padded to two digits, and two runs show the same time only when they
    have the same seconds left. *)
Theorem formattedTime_unambiguous (a b : Z) :
  0 < a <= 300 -> 0 < b <= 300 ->
  String.length (formattedTime a) = 5%nat
  /\ (formattedTime a = formattedTime b -> a = b).
Proof.
  intros Ha Hb.
  pose proof formattedTime_table as T.
  rewrite List.forallb_forall in T.
  specialize (T a (in_window a Ha)).
  apply andb_prop in T as [T1 T2].
  split; [apply Nat.eqb_eq, T1|].
  rewrite List.forallb_forall in T2. specialize (T2 b (in_window b Hb)).
  intros E. rewrite E, String.eqb_refl in T2. cbn in T2.
  apply Z.eqb_eq, T2.
Qed.

End CooldownMore.


(** ** The further properties at sample sessions *)

Module MoreChecks.
Import GenerationClient Generate Session Surface.

Lemma speak_retries_voice_loading_silent :
  snd (Speech.speakText (Sample.platform [Sample.es_ES]) "Hola" MoreSample.silent) = []
  /\ voices (fst (Speech.speakText (Sample.platform [Sample.es_ES]) "Hola"
                    MoreSample.silent))
     = [Sample.es_ES]
  /\ snd (Speech.speakText (Sample.platform [Sample.es_ES]) "Hola"
            (fst (Speech.speakText (Sample.platform [Sample.es_ES]) "Hola"
                    MoreSample.silent)))
     = [SpeechSpeak "Hola" "es-ES" (Some Sample.es_ES)].
Proof.
  pose proof (SpeechMore.speak_retries_voice_loading
                (Sample.platform [Sample.es_ES]) "Hola" MoreSample.silent "es-ES") as H.
  cbv zeta in H.
  destruct H as (H1 & H2 & _ & _ & _ & H6);
    [vm_compute; reflexivity|reflexivity|reflexivity|vm_compute; reflexivity|].
  destruct H6 as [H6 _]; [discriminate|reflexivity|].
  split; [exact H1|]. split; [exact H2|exact H6].
Defined.

Lemma voices_fixed_after_first_load_initial :
  voices (fst (run [VoicesChanged [Sample.es_ES]; ClickNext]
                 (fst (dispatch (WindowLoad (Sample.platform [Sample.en_GB]))
                         (initial_state Sample.en_es)))))
  = [Sample.en_GB].
Proof.
  apply (SpeechMore.voices_fixed_after_first_load
           (Sample.platform [Sample.en_GB]) (initial_state Sample.en_es)
           [VoicesChanged [Sample.es_ES]; ClickNext]).
  - discriminate.
  - reflexivity.
  - reflexivity.
Defined.

Lemma rejected_click_effects_undecided :
  trace_of (click Sample.net_down 0 MoreSample.undecided) = []
  /\ learningLangCode (state_of (click Sample.net_down 0 MoreSample.undecided))
     = Some "ja-JP"
  /\ phrasesData (state_of (click Sample.net_down 0 MoreSample.undecided))
     = phrasesData MoreSample.undecided.
Proof.
  pose proof (GenerateMore.rejected_click_effects Sample.net_down 0
                MoreSample.undecided) as H.
  cbv zeta in H.
  destruct H as (H1 & H2 & _ & H4 & _); [vm_compute; reflexivity|].
  split; [exact H1|]. split; [exact H2|exact H4].
Defined.


Lemma no_regeneration_during_cooldown_browsing :
  phrasesData
    (fst (run MoreSample.impatient
            (state_of (click (Sample.net_up [Sample.gracias]) 400000 Sample.browsing))))
  = phrasesData
      (state_of (click (Sample.net_up [Sample.gracias]) 400000 Sample.browsing))
  /\ List.filter is_fetch
       (snd (run MoreSample.impatient
               (state_of (click (Sample.net_up [Sample.gracias]) 400000
                            Sample.browsing))))
     = [].
Proof.
  pose proof (SessionMore.no_regeneration_during_cooldown
                (Sample.net_up [Sample.gracias]) 400000 Sample.browsing
                MoreSample.impatient) as H.
  cbv zeta in H.
  destruct H as (H1 & _ & _ & H4).
  - exists Sample.en_es, Sample.browsing_events.
    unfold Sample.browsing. reflexivity.
  - vm_compute. reflexivity.
  - vm_compute. reflexivity.
  - unfold MoreSample.impatient. repeat constructor; vm_compute; discriminate.
  - split; [exact H1|exact H4].
Defined.

Lemma screen_follows_cursor_browsing :
  exists p,
    Deck.current (fst (run Sample.browsing_events (initial_state Sample.en_es)))
      = Some p
    /\ learningPhraseTextEl
         (card (page (fst (run Sample.browsing_events (initial_state Sample.en_es)))))
       = learning p
    /\ phraseCounter
         (card (page (fst (run Sample.browsing_events (initial_state Sample.en_es)))))
       = (currentPhraseIndex
            (fst (run Sample.browsing_events (initial_state Sample.en_es))) + 1,
          js_length
            (phrasesData
               (fst (run Sample.browsing_events (initial_state Sample.en_es))))).
Proof.
  pose proof (SessionMore.screen_follows_cursor Sample.en_es Sample.browsing_events)
    as H.
  cbv zeta in H.
  destruct H as (p & H1 & _ & H3 & _ & H5 & _).
  - unfold Sample.browsing_events. repeat constructor.
  - vm_compute. reflexivity.
  - vm_compute. discriminate.
  - exists p. split; [exact H1|]. split; [exact H3|exact H5].
Defined.

Lemma step_there_and_back_samples :
  fst (Deck.showPreviousPhrase (fst (Deck.showNextPhrase Sample.fresh)))
    = fst (Deck.displayCurrentPhrase Sample.fresh)
  /\ fst (Deck.showNextPhrase (fst (Deck.showPreviousPhrase Sample.browsing)))
     = fst (Deck.displayCurrentPhrase Sample.browsing).
Proof.
  split.
  - apply (proj1 (DeckMore.step_there_and_back Sample.fresh)).
    vm_compute. split; [discriminate|reflexivity].
  - apply (proj2 (DeckMore.step_there_and_back Sample.browsing)).
    vm_compute. split; reflexivity.
Defined.

Lemma spoken_is_shown_browsing :
  dispatch (ClickLearningPhrase (Sample.platform [Sample.es_ES]))
    (fst (run Sample.browsing_events (initial_state Sample.en_es)))
  = Speech.speakText (Sample.platform [Sample.es_ES])
      (learningPhraseTextEl
         (card (page (fst (run Sample.browsing_events (initial_state Sample.en_es))))))
      (fst (run Sample.browsing_events (initial_state Sample.en_es))).
Proof.
  pose proof (SessionMore.spoken_is_shown Sample.en_es Sample.browsing_events
                (Sample.platform [Sample.es_ES]) 0) as H.
  cbv zeta in H.
  destruct H as [H _].
  - unfold Sample.browsing_events. repeat constructor.
  - vm_compute. reflexivity.
  - vm_compute. discriminate.
  - exact H.
Defined.

Lemma timeLeft_runs_down_sample :
  Cooldown.timeLeft (0 + WAIT_TIME * 1000) 2500
    <= Cooldown.timeLeft (0 + WAIT_TIME * 1000) 1000 <= 300.
Proof.
  pose proof (CooldownMore.timeLeft_runs_down 0 1000 2500) as H.
  cbv zeta in H. destruct H as [H _]; [lia|lia|exact H].
Defined.

Lemma formattedTime_unambiguous_sample :
  String.length (formattedTime 61) = 5%nat
  /\ (formattedTime 61 = formattedTime 125 -> 61 = 125).
Proof.
  apply (CooldownMore.formattedTime_unambiguous 61 125); lia.
Defined.

(** The time the bubble shows at the start of a window, with a minute and
    a second left, and at its last second. *)
Example formattedTime_samples :
  formattedTime 300 = "05:00" /\ formattedTime 61 = "01:01"
  /\ formattedTime 1 = "00:01"
  /\ timerBubble_textContent 300000 1500 = Some "Next generation in: 04:58"
  /\ timerBubble_textContent 300000 299001 = None.
Proof. vm_compute. repeat split. Qed.

End MoreChecks.


(** ** The retry policy of the generation client *)

Module PolicyFacts.
Import GenerationClient Policy.

Lemma Fails_try_block o e : Fails o e -> try_block o = inl e.
Proof. destruct 1; reflexivity. Qed.

Lemma Answers_try_block o ps : Answers o ps -> try_block o = inr ps.
Proof. destruct 1; reflexivity. Qed.

(** Every answer of the network is a failure of one of the kinds or a
    success. *)
Lemma Fails_or_Answers o : (exists e, Fails o e) \/ (exists ps, Answers o ps).
Proof.
  destruct o as [e|ok statusText body]; [left; eexists; constructor|].
  destruct ok; [|left; eexists; constructor].
  destruct body as [e|[cands]]; [left; eexists; constructor|].
  destruct cands as [[|[ct] cs]|]; try (left; eexists; constructor; fail).
  destruct ct as [[pp]|]; [|left; eexists; constructor].
  destruct pp as [[|[t] ps]|]; try (left; eexists; constructor; fail).
  destruct t as [e|phrases]; [left|right]; eexists; constructor.
Qed.

(** The first attempts that fail, as [try_block] sees them. *)
Lemma failing_prefix (net : nat -> FetchOutcome) (k : nat) :
  (forall j, (j < k)%nat -> exists e, Fails (net j) e) ->
  forall j, (j < k)%nat -> exists e, try_block (net j) = inl e.
Proof.
  intros H j Hj. destruct (H j Hj) as [e He].
  exists e. apply Fails_try_block, He.
Qed.

(** C3. An attempt fails when [fetch] is rejected, when the status is not
    a success (whatever the body), when the body is not JSON, when the
    payload lacks the candidate text, and when that text does not parse,
    each with its own cause; it succeeds when a success status carries a
    text that parses, and gives the parsed phrases; an answer of the network
    is one or the other. For every request and every behaviour of the
    network, [callGeminiAPI] completes (with any fuel of five rounds or
    more) after 1 to 5 attempts, with waits of 1000, 2000, 4000 and 8000 ms
    between consecutive attempts. When the attempts before the [k]-th fail
    and the [k]-th succeeds, it returns the phrases of that answer at once,
    having waited after each failure. When the five attempts fail it throws
    the cause of the fifth, with no further wait or attempt. *)
Theorem retry_policy_by_cause (prompt : string) (net : nat -> FetchOutcome) :
  let res := fst (callGeminiAPI prompt net) in
  let tr := snd (callGeminiAPI prompt net) in
  (forall o e, Fails o e -> try_block o = inl e)
  /\ (forall o ps, Answers o ps -> try_block o = inr ps)
  /\ (forall o, (exists e, Fails o e) \/ (exists ps, Answers o ps))
  /\ (forall fuel, (5 <= fuel)%nat ->
        retry_loop fuel prompt net 0 0 1000 = Some (as_exit res, tr))
  /\ (1 <= attempts tr <= 5)%nat
  /\ waits tr = firstn (attempts tr - 1) [1000; 2000; 4000; 8000]
  /\ (forall k ps, (k < 5)%nat ->
        (forall j, (j < k)%nat -> exists e, Fails (net j) e) ->
        Answers (net k) ps ->
        res = Returned ps
        /\ tr = failed_prefix prompt k ++ [Fetch prompt]
        /\ attempts tr = S k
        /\ waits tr = firstn k [1000; 2000; 4000; 8000])
  /\ (forall e,
        (forall j, (j < 4)%nat -> exists e', Fails (net j) e') ->
        Fails (net 4%nat) e ->
        res = Threw e
        /\ tr = failed_prefix prompt 4 ++ failed_attempt prompt
        /\ attempts tr = 5%nat
        /\ waits tr = [1000; 2000; 4000; 8000]).
Proof.
  intros res tr.
  split; [exact Fails_try_block|]. split; [exact Answers_try_block|].
  split; [exact Fails_or_Answers|]. split.
  { intros fuel Hf. eapply GenerationClientFacts.retry_loop_fuel_le; [exact Hf|].
    apply GenerationClientFacts.retry_loop_exit. }
  subst res tr. split; [|split; [|split]].
  - rewrite GenerationClientFacts.callGeminiAPI_cases.
    destruct (try_block (net 0%nat));
      [destruct (try_block (net 1%nat));
        [destruct (try_block (net 2%nat));
          [destruct (try_block (net 3%nat));
            [destruct (try_block (net 4%nat))|]|]|]|]; cbn; lia.
  - rewrite GenerationClientFacts.callGeminiAPI_cases.
    destruct (try_block (net 0%nat));
      [destruct (try_block (net 1%nat));
        [destruct (try_block (net 2%nat));
          [destruct (try_block (net 3%nat));
            [destruct (try_block (net 4%nat))|]|]|]|]; reflexivity.
  - intros k ps Hk Hprev Hans. apply Answers_try_block in Hans.
    pose proof (failing_prefix net k Hprev) as Hf.
    rewrite GenerationClientFacts.callGeminiAPI_cases.
    destruct k as [|[|[|[|[|k]]]]]; [| | | | |lia].
    + rewrite Hans. cbn. auto.
    + destruct (Hf 0%nat) as [e0 E0]; [lia|].
      rewrite E0, Hans. cbn. auto.
    + destruct (Hf 0%nat) as [e0 E0]; [lia|].
      destruct (Hf 1%nat) as [e1 E1]; [lia|].
      rewrite E0, E1, Hans. cbn. auto.
    + destruct (Hf 0%nat) as [e0 E0]; [lia|].
      destruct (Hf 1%nat) as [e1 E1]; [lia|].
      destruct (Hf 2%nat) as [e2 E2]; [lia|].
      rewrite E0, E1, E2, Hans. cbn. auto.
    + destruct (Hf 0%nat) as [e0 E0]; [lia|].
      destruct (Hf 1%nat) as [e1 E1]; [lia|].
      destruct (Hf 2%nat) as [e2 E2]; [lia|].
      destruct (Hf 3%nat) as [e3 E3]; [lia|].
      rewrite E0, E1, E2, E3, Hans. cbn. auto.
  - intros e Hprev Hlast. apply Fails_try_block in Hlast.
    pose proof (failing_prefix net 4 Hprev) as Hf.
    rewrite GenerationClientFacts.callGeminiAPI_cases.
    destruct (Hf 0%nat) as [e0 E0]; [lia|].
    destruct (Hf 1%nat) as [e1 E1]; [lia|].
    destruct (Hf 2%nat) as [e2 E2]; [lia|].
    destruct (Hf 3%nat) as [e3 E3]; [lia|].
    rewrite E0, E1, E2, E3, Hlast. cbn. auto.
Qed.

End PolicyFacts.


(** ** The listener around its await *)

Module AwaitFacts.
Import GenerationClient Generate Session Await Surface.

(** [Generate.click] is the first run followed at once by the second. *)
Lemma click_uninterrupted net now s :
  click net now s
  = match start s with
    | Done s' tr o => (s', tr, o)
    | Awaiting s1 prompt => settle prompt net now s1
    end.
Proof.
  unfold click, start.
  destruct (_ || _)%bool; [reflexivity|].
  destruct (_ && _)%bool; [reflexivity|].
  unfold try_generate, settle, resume.
  destruct (build_prompt _ _) as [e|prompt]; [reflexivity|].
  destruct (callGeminiAPI prompt net) as [[v|e] tr]; [|reflexivity].
  destruct (Deck.displayCurrentPhrase _) as [s2 [e|]]; [reflexivity|].
  cbn. rewrite app_nil_r. reflexivity.
Qed.


(** A first run reaches the call when the validations pass and both
    languages are in the table. *)
Lemma start_reaches_call s :
  rejects (form s) = false -> known_form (form s) = true ->
  exists prompt,
    start s
    = Awaiting (prepare (set_learningLangCode
                           (Some (learningLangSelect_value (form s))) s)) prompt
    /\ request_of s = inr prompt.
Proof.
  intros Hr Hk. apply GenerateMore.rejects_spec in Hr as [H1 H2].
  cbn zeta in H1, H2. unfold start. rewrite H1, H2.
  unfold request_of, build_prompt, known_form in *.
  cbn [form prepare set_currentPhraseIndex on_page set_page set_learningLangCode].
  destruct (find_language (nativeLangSelect_value (form s))) as [n|];
    [|discriminate].
  destruct (find_language (learningLangSelect_value (form s))) as [l|];
    [|discriminate].
  eexists. split; reflexivity.
Qed.

(** What the second run does to the deck and the controls. It never
    writes the cursor. *)
Lemma resume_controls c now s :
  let r := resume c now s in
  currentPhraseIndex (state_of r) = currentPhraseIndex s
  /\ learningLangCode (state_of r) = learningLangCode s
  /\ form (state_of r) = form s
  /\ phrasesData (state_of r)
     = match c with Returned v => v | Threw _ => phrasesData s end
  /\ match outcome_of r with
     | Succeeded =>
         intervals (host (state_of r))
         = intervals (host s) ++ [(next_handle (host s), now + WAIT_TIME * 1000)]
         /\ timerInterval (state_of r) = Some (next_handle (host s))
         /\ generateBtn_disabled (page (state_of r)) = generateBtn_disabled (page s)
         /\ outputContainer_display (page (state_of r)) = DisplayBlock
     | _ =>
         host (state_of r) = host s
         /\ timerInterval (state_of r) = timerInterval s
         /\ generateBtn_disabled (page (state_of r)) = generateBtn_disabled (page s)
         /\ outputContainer_display (page (state_of r))
            = outputContainer_display (page s)
     end.
Proof.
  intros r. subst r. unfold resume, state_of, outcome_of.
  destruct c as [v|e]; [|cbn; repeat split; reflexivity].
  destruct (DeckFacts.displayCurrentPhrase_deck (set_phrasesData v s)) as [Hp Hi].
  destruct (SessionMore.displayCurrentPhrase_frame (set_phrasesData v s)) as [Ho Hf].
  assert (Hh : host (fst (Deck.displayCurrentPhrase (set_phrasesData v s))) = host s
               /\ timerInterval (fst (Deck.displayCurrentPhrase (set_phrasesData v s)))
                  = timerInterval s
               /\ learningLangCode (fst (Deck.displayCurrentPhrase (set_phrasesData v s)))
                  = learningLangCode s
               /\ generateBtn_disabled
                    (page (fst (Deck.displayCurrentPhrase (set_phrasesData v s))))
                  = generateBtn_disabled (page s)).
  { unfold Deck.displayCurrentPhrase. repeat case_match; simplify_eq; cbn; auto. }
  destruct Hh as (Hh & Ht & Hl & Hb).
  destruct (Deck.displayCurrentPhrase (set_phrasesData v s)) as [s2 [e|]];
    cbn in *; rewrite ?Hh; repeat split; auto.
Qed.

(** While a request is pending in a session, the generate button is
    disabled and no interval is live; no event changes that, the deck, the
    language or the timer variable, and an event that is not a step
    forward or backward leaves the cursor. *)
Lemma dispatch_in_flight ev s :
  generateBtn_disabled (page s) = true -> idle s ->
  (generateBtn_disabled (page (fst (dispatch ev s))) = true
   /\ idle (fst (dispatch ev s)))
  /\ phrasesData (fst (dispatch ev s)) = phrasesData s
  /\ timerInterval (fst (dispatch ev s)) = timerInterval s
  /\ learningLangCode (fst (dispatch ev s)) = learningLangCode s
  /\ (is_navigation ev = false ->
      currentPhraseIndex (fst (dispatch ev s)) = currentPhraseIndex s).
Proof.
  intros Hb Hidle. split; [apply SessionFacts.dispatch_stuck; auto|].
  destruct ev.
  1, 2, 8, 9:
    match goal with
    | |- context [dispatch ?ev ?s0] =>
        destruct (SessionFacts.dispatch_same_controls ev s0 eq_refl eq_refl)
          as (Hp & Hl & Ht & _);
        destruct (SessionMore.dispatch_same_view ev s0 I) as (_ & _ & Hi & _);
        auto
    end.
  - cbn. auto.
  - cbn [dispatch]. rewrite Hb. cbn. auto.
  - destruct (SessionFacts.dispatch_same_controls ClickPrev s eq_refl eq_refl)
      as (Hp & Hl & Ht & _). repeat split; auto. discriminate.
  - destruct (SessionFacts.dispatch_same_controls ClickNext s eq_refl eq_refl)
      as (Hp & Hl & Ht & _). repeat split; auto. discriminate.
  - destruct (SessionFacts.dispatch_same_controls (KeyDown key) s eq_refl eq_refl)
      as (Hp & Hl & Ht & _). repeat split; auto. discriminate.
  - cbn [dispatch fst]. unfold Cooldown.fire, Cooldown.live.
    rewrite Hidle. cbn. auto.
Qed.

Lemma run_in_flight evs :
  forall s,
    generateBtn_disabled (page s) = true -> idle s ->
    (generateBtn_disabled (page (fst (run evs s))) = true
     /\ idle (fst (run evs s)))
    /\ phrasesData (fst (run evs s)) = phrasesData s
    /\ timerInterval (fst (run evs s)) = timerInterval s
    /\ learningLangCode (fst (run evs s)) = learningLangCode s
    /\ (forallb (fun ev => negb (is_navigation ev)) evs = true ->
        currentPhraseIndex (fst (run evs s)) = currentPhraseIndex s).
Proof.
  induction evs as [|ev evs IH]; intros s Hb Hidle; [cbn; auto|].
  rewrite SessionFacts.run_cons. cbn [fst].
  destruct (dispatch_in_flight ev s Hb Hidle) as ([Hb1 Hi1] & Hp1 & Ht1 & Hl1 & Hc1).
  destruct (IH _ Hb1 Hi1) as (HH & Hp2 & Ht2 & Hl2 & Hc2).
  split; [exact HH|]. repeat split; try congruence.
  cbn [forallb]. intros Hn. apply andb_prop in Hn as [Hn1 Hn2].
  rewrite Hc2 by exact Hn2. apply Hc1.
  destruct (is_navigation ev); [discriminate|reflexivity].
Qed.

(** What the first run leaves: it starts no timer and keeps the deck; it
    writes the cursor, and disables the button, once the validations have
    passed. *)
Lemma start_controls s :
  match start s with
  | Done s' _ o =>
      phrasesData s' = phrasesData s
      /\ host s' = host s
      /\ timerInterval s' = timerInterval s
      /\ match o with
         | Rejected =>
             currentPhraseIndex s' = currentPhraseIndex s
             /\ generateBtn_disabled (page s') = generateBtn_disabled (page s)
         | _ =>
             currentPhraseIndex s' = 0
             /\ generateBtn_disabled (page s') = true
         end
  | Awaiting s' _ =>
      phrasesData s' = phrasesData s
      /\ host s' = host s
      /\ timerInterval s' = timerInterval s
      /\ form s' = form s
      /\ learningLangCode s' = Some (learningLangSelect_value (form s))
      /\ currentPhraseIndex s' = 0
      /\ generateBtn_disabled (page s') = true
      /\ outputContainer_display (page s') = DisplayNone
      /\ statusMessage_display (page s') = DisplayBlock
  end.
Proof.
  unfold start.
  destruct (_ || _)%bool; [cbn; repeat split; reflexivity|].
  destruct (_ && _)%bool; [cbn; repeat split; reflexivity|].
  destruct (build_prompt _ _) as [e|prompt]; cbn; repeat split; reflexivity.
Qed.

(** When [displayCurrentPhrase] completes: the deck is empty, or the
    cursor is within it and both languages of the form are in the table. *)
Lemma displayCurrentPhrase_completes_iff s :
  snd (Deck.displayCurrentPhrase s) = None
  <-> phrasesData s = []
      \/ (0 <= currentPhraseIndex s < js_length (phrasesData s)
          /\ known_form (form s) = true).
Proof.
  unfold Deck.displayCurrentPhrase, known_form, js_length, js_index.
  destruct (phrasesData s) as [|p0 deck] eqn:Hd; [cbn; tauto|].
  change (Z.of_nat (length (p0 :: deck)) =? 0) with false. cbv iota.
  destruct (Z.ltb_spec (currentPhraseIndex s) 0) as [Hneg|Hpos].
  { cbn. split; [discriminate|]. intros [?|[? _]]; [discriminate|lia]. }
  destruct ((p0 :: deck) !! Z.to_nat (currentPhraseIndex s)) as [p|] eqn:Hl.
  - apply lookup_lt_Some in Hl.
    cbn -[find_language length].
    destruct (find_language (nativeLangSelect_value (form s))) as [n|];
      cbn -[find_language length].
    + destruct (find_language (learningLangSelect_value (form s))) as [l|];
        cbn -[find_language length].
      * split; [|reflexivity]. intros _. right. split; [lia|reflexivity].
      * split; [discriminate|]. intros [?|[_ ?]]; discriminate.
    + split; [discriminate|]. intros [?|[_ ?]]; discriminate.
  - apply lookup_ge_None in Hl. cbn -[length].
    split; [discriminate|]. intros [?|[? _]]; [discriminate|lia].
Qed.

(** While a request is pending, the session delivers events as the
    handlers of [Session.dispatch] run them: the button is disabled, so a
    click on it is not delivered. *)
Lemma steps_in_flight evs :
  forall s pending,
    generateBtn_disabled (page s) = true -> idle s ->
    Schedule.steps (List.map Schedule.Deliver evs) (s, pending)
    = ((fst (run evs s), pending), snd (run evs s)).
Proof.
  induction evs as [|ev evs IH]; intros s pending Hb Hidle; [reflexivity|].
  destruct (SessionFacts.dispatch_stuck ev s (conj Hb Hidle)) as [Hb1 Hi1].
  cbn [List.map Schedule.steps run].
  assert (Hstep : Schedule.step (Schedule.Deliver ev) (s, pending)
                  = ((fst (dispatch ev s), pending), snd (dispatch ev s))).
  { destruct ev; cbn [Schedule.step];
      try (match goal with
           | |- context [dispatch ?ev0 s] =>
               destruct (dispatch ev0 s); reflexivity
           end).
    cbn [dispatch]. rewrite Hb. reflexivity. }
  rewrite Hstep, (IH _ pending Hb1 Hi1).
  destruct (dispatch ev s) as [s1 tr1]. cbn [fst snd].
  destruct (run evs s1) as [s2 tr2]. reflexivity.
Qed.

(** One request at a time: every step of a session keeps the timer
    discipline and at most one pending request, under a disabled button
    and with no interval live. *)
Lemma step_one_at_a_time st l :
  Schedule.one_at_a_time l -> Schedule.one_at_a_time (fst (Schedule.step st l)).
Proof.
  destruct l as [s pending]. unfold Schedule.one_at_a_time. cbn [fst snd].
  intros [Hd Hp].
  assert (Henabled : generateBtn_disabled (page s) = false ->
                     idle s /\ pending = []).
  { intros Hb. split.
    - destruct Hd as [Hd|(h & e & _ & _ & Hd)]; [exact Hd|congruence].
    - destruct Hp as [Hp|(f & _ & Hp & _)]; [exact Hp|congruence]. }
  destruct st as [ev|].
  - assert (Hother : is_generate ev = false ->
              timer_discipline (fst (dispatch ev s))
              /\ (pending = []
                  \/ exists f, pending = [f]
                       /\ generateBtn_disabled (page (fst (dispatch ev s))) = true
                       /\ idle (fst (dispatch ev s)))).
    { intros _. split; [apply SessionFacts.dispatch_timer_discipline; exact Hd|].
      destruct Hp as [Hp|(f & Hp & Hb & Hi)]; [left; exact Hp|].
      right. exists f. split; [exact Hp|].
      apply SessionFacts.dispatch_stuck. auto. }
    destruct ev;
      try (cbn [Schedule.step];
           match goal with
           | |- context [dispatch ?ev0 s] =>
               specialize (Hother eq_refl);
               destruct (dispatch ev0 s) as [s1 tr1]; exact Hother
           end).
    cbn [Schedule.step].
    destruct (generateBtn_disabled (page s)) eqn:Hb;
      [cbn [fst snd]; rewrite Hb; split; [exact Hd|exact Hp]|].
    destruct (Henabled eq_refl) as [Hidle ->].
    pose proof (start_controls s) as Hs.
    destruct (start s) as [s' tr o|s' prompt]; cbn [fst snd].
    + destruct Hs as (_ & Hh & _). split; [|left; reflexivity].
      left. unfold idle. rewrite Hh. exact Hidle.
    + destruct Hs as (_ & Hh & _ & _ & _ & _ & Hb' & _).
      assert (Hi' : idle s') by (unfold idle; rewrite Hh; exact Hidle).
      split; [left; exact Hi'|]. right. eexists. split; [reflexivity|]. auto.
  - cbn [Schedule.step]. destruct pending as [|f pending']; [cbn; auto|].
    destruct Hp as [Hp|(f0 & Hp & Hb & Hidle)]; [discriminate|].
    injection Hp as <- ->.
    unfold settle.
    destruct (callGeminiAPI (Schedule.flight_prompt f) (Schedule.flight_net f))
      as [c tr].
    pose proof (resume_controls c (Schedule.flight_now f) s) as Hr.
    cbn zeta in Hr. unfold state_of, outcome_of in Hr.
    destruct (resume c (Schedule.flight_now f) s) as [[s' tr'] o].
    cbn [fst snd] in Hr |- *. split; [|left; reflexivity].
    destruct Hr as (_ & _ & _ & _ & Hr). destruct o.
    + left. unfold idle. destruct Hr as (-> & _). exact Hidle.
    + left. unfold idle. destruct Hr as (-> & _). exact Hidle.
    + right. destruct Hr as (Hint & Ht & Hb' & _). rewrite Hidle in Hint.
      exists (next_handle (host s)), (Schedule.flight_now f + WAIT_TIME * 1000).
      repeat split; [exact Hint|exact Ht|congruence].
Qed.

Lemma steps_one_at_a_time sts :
  forall l, Schedule.one_at_a_time l ->
            Schedule.one_at_a_time (fst (Schedule.steps sts l)).
Proof.
  induction sts as [|st sts IH]; intros l Hl; [exact Hl|].
  cbn [Schedule.steps].
  pose proof (step_one_at_a_time st l Hl) as H1.
  destruct (Schedule.step st l) as [l1 tr1]. cbn [fst] in H1.
  specialize (IH l1 H1). destruct (Schedule.steps sts l1) as [l2 tr2].
  exact IH.
Qed.

Lemma reachable_one_at_a_time l :
  Schedule.reachable l -> Schedule.one_at_a_time l.
Proof.
  intros (f & sts & <-). apply steps_one_at_a_time.
  split; [left; reflexivity|left; reflexivity].
Qed.

(** A click that is delivered in a session finds no request pending and
    no interval live. *)
Lemma reachable_enabled s pending :
  Schedule.reachable (s, pending) -> can_regenerate s ->
  idle s /\ pending = [].
Proof.
  intros Hr Hb. destruct (reachable_one_at_a_time _ Hr) as [Hd Hp].
  cbn [fst snd] in *. unfold can_regenerate in Hb. split.
  - destruct Hd as [Hd|(h & e & _ & _ & Hd)]; [exact Hd|congruence].
  - destruct Hp as [Hp|(f & _ & Hp & _)]; [exact Hp|congruence].
Qed.

(** A request from its click to its answer, with the events delivered in
    between. *)
Lemma steps_request net now s s1 prompt evs :
  can_regenerate s -> idle s -> start s = Awaiting s1 prompt ->
  fst (Schedule.steps
         (Schedule.Deliver (ClickGenerate net now)
            :: List.map Schedule.Deliver evs ++ [Schedule.Settle]) (s, []))
  = (state_of (settle prompt net now (fst (run evs s1))), []).
Proof.
  intros Hb Hidle Hs. unfold can_regenerate in Hb.
  pose proof (start_controls s) as Hc. rewrite Hs in Hc.
  destruct Hc as (_ & Hh & _ & _ & _ & _ & Hb1 & _).
  assert (Hi1 : idle s1) by (unfold idle; rewrite Hh; exact Hidle).
  cbn [Schedule.steps Schedule.step]. rewrite Hb, Hs. cbn [app].
  set (f := {| Schedule.flight_prompt := prompt |}).
  assert (Hsteps : forall sts1 sts2 l,
            fst (Schedule.steps (sts1 ++ sts2) l)
            = fst (Schedule.steps sts2 (fst (Schedule.steps sts1 l)))).
  { induction sts1 as [|st sts1 IH]; intros sts2 l; [reflexivity|].
    cbn [app Schedule.steps]. destruct (Schedule.step st l) as [l1 tr1].
    specialize (IH sts2 l1).
    destruct (Schedule.steps (sts1 ++ sts2) l1) as [l2 tr2].
    destruct (Schedule.steps sts1 l1) as [l3 tr3]. cbn [fst] in IH |- *.
    rewrite IH. destruct (Schedule.steps sts2 l3). reflexivity. }
  destruct (Schedule.steps (List.map Schedule.Deliver evs ++ [Schedule.Settle])
              (s1, [f])) as [l2 tr2] eqn:E.
  cbn [fst]. change l2 with (fst (l2, tr2)). rewrite <- E.
  rewrite Hsteps, (steps_in_flight evs s1 [f] Hb1 Hi1). cbn [fst].
  cbn [Schedule.steps Schedule.step]. subst f. cbn [Schedule.flight_prompt
    Schedule.flight_net Schedule.flight_now].
  unfold state_of.
  destruct (settle prompt net now (fst (run evs s1))) as [[s' tr'] o].
  reflexivity.
Qed.

(** Every delivered event keeps the cursor within the deck, also while a
    request is pending. *)
Lemma deliver_invariant ev s pending :
  Deck.invariant s ->
  Deck.invariant (fst (fst (Schedule.step (Schedule.Deliver ev) (s, pending)))).
Proof.
  intros Hinv.
  assert (Hother : is_generate ev = false ->
                   Deck.invariant (fst (dispatch ev s)))
    by (intros _; apply SessionFacts.dispatch_invariant; exact Hinv).
  destruct ev;
    try (cbn [Schedule.step];
         match goal with
         | |- context [dispatch ?ev0 s] =>
             specialize (Hother eq_refl);
             destruct (dispatch ev0 s) as [s1 tr1]; exact Hother
         end).
  cbn [Schedule.step].
  destruct (generateBtn_disabled (page s)); [exact Hinv|].
  pose proof (start_controls s) as Hs.
  assert (Hzero : forall s', phrasesData s' = phrasesData s ->
                             currentPhraseIndex s' = 0 -> Deck.invariant s').
  { intros s' Hp Hi. unfold Deck.invariant, js_length. rewrite Hp, Hi.
    destruct (phrasesData s); [congruence|cbn; lia]. }
  destruct (start s) as [s' tr o|s' prompt]; cbn [fst].
  - destruct Hs as (Hp & _ & _ & Ho). destruct o.
    + destruct Ho as [Hi _]. unfold Deck.invariant in *. rewrite Hp, Hi.
      exact Hinv.
    + apply Hzero; tauto.
    + apply Hzero; tauto.
  - apply Hzero; tauto.
Qed.

End AwaitFacts.

(** ** A regeneration from its click to its answer *)

Module RegenerationFacts.
Import GenerationClient Generate Session Await Surface AwaitFacts.

(** C1, as amended. In a session, a click on the enabled generate button
    that passes the validations sends its request with the cursor already
    put back to 0 (line 351 runs before the call). When [callGeminiAPI]
    then throws its terminal error [e], whatever events were delivered
    while the request was pending, the listener ends in its [catch] with
    that error; the phrases are those found at the click; no timer was
    started and the timer variable is untouched. The cursor is not the one
    found at the click: it is where the events delivered during the
    request left it from 0, so 0 when none of them was a step forward or
    backward. The first conjunct ties the two runs of the listener to the
    steps of the session. *)
Theorem failed_request_keeps_phrases
    (net : nat -> FetchOutcome) (now : Z) (s s1 : State)
    (pending : list Schedule.Flight) (prompt : string)
    (evs : list Event) (e : Error) :
  Schedule.reachable (s, pending) -> can_regenerate s ->
  start s = Awaiting s1 prompt ->
  fst (callGeminiAPI prompt net) = Threw e ->
  let s2 := fst (run evs s1) in
  let r := settle prompt net now s2 in
  fst (Schedule.steps
         (Schedule.Deliver (ClickGenerate net now)
            :: List.map Schedule.Deliver evs ++ [Schedule.Settle])
         (s, pending))
  = (state_of r, [])
  /\ outcome_of r = Failed e
  /\ phrasesData (state_of r) = phrasesData s
  /\ idle (state_of r)
  /\ timerInterval (state_of r) = timerInterval s
  /\ currentPhraseIndex s1 = 0
  /\ currentPhraseIndex (state_of r) = currentPhraseIndex s2
  /\ (forallb (fun ev => negb (is_navigation ev)) evs = true ->
      currentPhraseIndex (state_of r) = 0).
Proof.
  intros Hreach Hb Hs Hc s2 r.
  destruct (reachable_enabled s pending Hreach Hb) as [Hidle ->].
  split; [exact (steps_request net now s s1 prompt evs Hb Hidle Hs)|].
  pose proof (start_controls s) as Hc1. rewrite Hs in Hc1.
  destruct Hc1 as (Hp1 & Hh1 & Ht1 & _ & _ & Hi1 & Hb1 & _).
  assert (Hidle1 : idle s1) by (unfold idle; rewrite Hh1; exact Hidle).
  destruct (run_in_flight evs s1 Hb1 Hidle1) as ([_ Hidle2] & Hp2 & Ht2 & _ & Hi2).
  fold s2 in Hidle2, Hp2, Ht2, Hi2.
  subst r. unfold settle.
  destruct (callGeminiAPI prompt net) as [c tr]. cbn [fst] in Hc. subst c.
  pose proof (resume_controls (Threw e) now s2) as Hr. cbn zeta in Hr.
  destruct (resume (Threw e) now s2) as [[s3 tr3] o] eqn:Hres.
  unfold state_of, outcome_of in *. cbn [fst snd] in *.
  assert (Ho : o = Failed e).
  { unfold resume in Hres. destruct (catch_generate s2). congruence. }
  subst o. destruct Hr as (Hi3 & _ & _ & Hp3 & Hh3 & Ht3 & _).
  split; [reflexivity|].
  split; [congruence|].
  split; [unfold idle; rewrite Hh3; exact Hidle2|].
  split; [congruence|].
  split; [exact Hi1|].
  split; [exact Hi3|].
  intros Hn. rewrite Hi3, (Hi2 Hn). exact Hi1.
Qed.




(** [x] occurs in a text: in a longer one, and in a list joined by a
    separator. *)





(** C9, what the code does. Every event the page delivers keeps the
    cursor within a deck that is not empty (a step forward or backward,
    the read of the current phrase, speech, the first run of a
    regeneration), also while a request is pending; so does the end of a
    request that failed. The end of a request that was answered replaces
    the deck without writing the cursor: the invariant survives only if
    the cursor of that moment lies within the answer or the answer is
    empty, and otherwise the regeneration fails with the deck replaced and
    the cursor outside it. A session shows it: two phrases on screen, a
    click on the generate button, a step forward while the request is
    pending, an answer of one phrase. *)
Theorem navigation_during_request_breaks_invariant :
  (forall ev s pending,
     Deck.invariant s ->
     Deck.invariant (fst (fst (Schedule.step (Schedule.Deliver ev) (s, pending)))))
  /\ (forall e now s,
        Deck.invariant s -> Deck.invariant (state_of (resume (Threw e) now s)))
  /\ (forall v now s,
        Deck.invariant (state_of (resume (Returned v) now s))
        <-> v = [] \/ 0 <= currentPhraseIndex s < js_length v)
  /\ (forall v now s,
        v <> [] -> ~ 0 <= currentPhraseIndex s < js_length v ->
        phrasesData (state_of (resume (Returned v) now s)) = v
        /\ outcome_of (resume (Returned v) now s)
           = Failed (TypeError "currentPhrase is undefined"))
  /\ Schedule.reachable (AwaitSample.ready, [])
  /\ Deck.invariant AwaitSample.ready
  /\ fst (Schedule.steps AwaitSample.overtaken_steps
            (initial_state Sample.en_es, []))
     = (AwaitSample.overtaken, [])
  /\ phrasesData AwaitSample.overtaken = [Sample.gracias]
  /\ currentPhraseIndex AwaitSample.overtaken = 1
  /\ ~ Deck.invariant AwaitSample.overtaken.
Proof.
  split; [exact deliver_invariant|].
  split.
  { intros e now s Hinv. pose proof (resume_controls (Threw e) now s) as Hr.
    cbn zeta in Hr. destruct Hr as (Hi & _ & _ & Hp & _).
    unfold Deck.invariant in *. rewrite Hi, Hp. exact Hinv. }
  split.
  { intros v now s. pose proof (resume_controls (Returned v) now s) as Hr.
    cbn zeta in Hr. destruct Hr as (Hi & _ & _ & Hp & _).
    unfold Deck.invariant. rewrite Hi, Hp. split.
    - intros H. destruct v as [|p v]; [left; reflexivity|].
      right. apply H. discriminate.
    - intros [->|H] Hne; [congruence|exact H]. }
  split.
  { intros v now s Hne Hout.
    pose proof (resume_controls (Returned v) now s) as Hr.
    cbn zeta in Hr. destruct Hr as (_ & _ & _ & Hp & _).
    split; [exact Hp|].
    unfold resume, outcome_of, Deck.displayCurrentPhrase, js_index, js_length in *.
    cbn [phrasesData set_phrasesData currentPhraseIndex].
    destruct v as [|p0 v]; [congruence|].
    change (Z.of_nat (length (p0 :: v)) =? 0) with false. cbv iota.
    destruct (Z.ltb_spec (currentPhraseIndex s) 0) as [Hneg|Hpos]; [reflexivity|].
    destruct ((p0 :: v) !! Z.to_nat (currentPhraseIndex s)) as [p|] eqn:Hl;
      [|reflexivity].
    apply lookup_lt_Some in Hl. exfalso. apply Hout. lia. }
  split.
  { exists Sample.en_es, AwaitSample.ready_steps. unfold AwaitSample.ready.
    vm_compute. reflexivity. }
  split.
  { unfold Deck.invariant. intros _.
    assert (Hi : currentPhraseIndex AwaitSample.ready = 0)
      by (vm_compute; reflexivity).
    assert (Hlen : js_length (phrasesData AwaitSample.ready) = 2)
      by (vm_compute; reflexivity).
    rewrite Hi, Hlen. lia. }
  split.
  { unfold AwaitSample.overtaken. vm_compute. reflexivity. }
  split; [vm_compute; reflexivity|].
  split; [vm_compute; reflexivity|].
  unfold Deck.invariant. intros H.
  assert (Hne : phrasesData AwaitSample.overtaken <> []) by (vm_compute; discriminate).
  specialize (H Hne).
  assert (Hi : currentPhraseIndex AwaitSample.overtaken = 1)
    by (vm_compute; reflexivity).
  assert (Hlen : js_length (phrasesData AwaitSample.overtaken) = 1)
    by (vm_compute; reflexivity).
  rewrite Hi, Hlen in H. lia.
Qed.

End RegenerationFacts.

(** ** More on the two runs of the listener *)

Module RegenerationMore.
Import GenerationClient Generate Session Await Surface AwaitFacts.

(** X5. When the answer of a request arrives and is an array of phrases,
    the listener replaces the deck by it before anything else and never
    writes the cursor. The regeneration then succeeds exactly when the
    answer is empty, or the cursor of that moment lies within it and both
    languages of the form are in the table: the results are shown and the
    cooldown starts, with nothing written to the console. Otherwise it
    fails with a TypeError from [displayCurrentPhrase], after the deck was
    replaced: the notice is shown, no timer is started, the button and the
    results container are left as they were. *)
Theorem answer_replaces_deck_before_display
    (v : list Phrase) (now : Z) (s : State) :
  let r := resume (Returned v) now s in
  phrasesData (state_of r) = v
  /\ currentPhraseIndex (state_of r) = currentPhraseIndex s
  /\ (outcome_of r = Succeeded
      <-> v = [] \/ (0 <= currentPhraseIndex s < js_length v
                     /\ known_form (form s) = true))
  /\ (outcome_of r = Succeeded ->
      trace_of r = []
      /\ visible (state_of r)
      /\ intervals (host (state_of r))
         = intervals (host s) ++ [(next_handle (host s), now + WAIT_TIME * 1000)]
      /\ timerInterval (state_of r) = Some (next_handle (host s)))
  /\ (outcome_of r <> Succeeded ->
      (exists e, outcome_of r = Failed e /\ err_name e = "TypeError")
      /\ trace_of r = [ConsoleError "Failed to generate or translate phrases:"]
      /\ errorMessage_textContent (page (state_of r))
         = "Sorry, something went wrong. Please try again."
      /\ errorMessage_display (page (state_of r)) = DisplayBlock
      /\ host (state_of r) = host s
      /\ timerInterval (state_of r) = timerInterval s
      /\ generateBtn_disabled (page (state_of r)) = generateBtn_disabled (page s)
      /\ outputContainer_display (page (state_of r))
         = outputContainer_display (page s)).
Proof.
  intros r. pose proof (resume_controls (Returned v) now s) as Hr.
  cbn zeta in Hr. fold r in Hr.
  destruct Hr as (Hi & _ & _ & Hp & Ho).
  split; [exact Hp|]. split; [exact Hi|].
  pose proof (displayCurrentPhrase_completes_iff (set_phrasesData v s)) as Hd.
  cbn [phrasesData currentPhraseIndex form set_phrasesData] in Hd.
  assert (Hcases :
    (snd (Deck.displayCurrentPhrase (set_phrasesData v s)) = None
     /\ outcome_of r = Succeeded /\ trace_of r = [])
    \/ (exists e, snd (Deck.displayCurrentPhrase (set_phrasesData v s)) = Some e
          /\ err_name e = "TypeError"
          /\ outcome_of r = Failed e
          /\ trace_of r = [ConsoleError "Failed to generate or translate phrases:"]
          /\ errorMessage_textContent (page (state_of r))
             = "Sorry, something went wrong. Please try again."
          /\ errorMessage_display (page (state_of r)) = DisplayBlock)).
  { subst r. unfold resume, outcome_of, trace_of, state_of.
    assert (Hname : forall e,
              snd (Deck.displayCurrentPhrase (set_phrasesData v s)) = Some e ->
              err_name e = "TypeError").
    { intros e. unfold Deck.displayCurrentPhrase.
      repeat case_match; cbn; intros Hsome; simplify_eq; reflexivity. }
    destruct (Deck.displayCurrentPhrase (set_phrasesData v s)) as [s2 [e|]].
    - right. exists e. cbn. repeat split. apply Hname. reflexivity.
    - left. cbn. auto. }
  split; [|split].
  - split.
    + intros Hs. apply Hd. destruct Hcases as [[H _]|(e & _ & _ & H & _)];
        [exact H|congruence].
    + intros H. apply Hd in H. destruct Hcases as [(_ & Hs & _)|(e & He & _)];
        [exact Hs|congruence].
  - intros Hs. rewrite Hs in Ho.
    destruct Hcases as [(_ & _ & Ht)|(e & _ & _ & H & _)]; [|congruence].
    destruct Ho as (Hint & Htimer & _ & Hv). auto.
  - intros Hs.
    destruct Hcases as [(_ & H & _)|(e & _ & Hn & Hf & Ht & Hm & Hmd)];
      [contradiction|].
    rewrite Hf in Ho. destruct Ho as (Hh & Htimer & Hb & Hv).
    split; [eauto|]. auto 10.
Qed.

(** X7. With both selects on options that [populateDropdowns] put there
    and a topic of the list, a click always reaches the call: it is not
    rejected and raises nothing before the request. At that point the
    button is disabled, the previous results are hidden, the loading
    indicator is shown, the cursor is 0, [learningLangCode] holds the
    selected learning language, and the deck, the timers and the form are
    untouched. *)
Theorem offered_form_reaches_the_call (s : State) :
  offered (nativeLangSelect_value (form s)) ->
  offered (learningLangSelect_value (form s)) ->
  topicSelect_value (form s) <> "custom" ->
  exists s1 prompt,
    start s = Awaiting s1 prompt
    /\ request_of s = inr prompt
    /\ generateBtn_disabled (page s1) = true
    /\ outputContainer_display (page s1) = DisplayNone
    /\ statusMessage_display (page s1) = DisplayBlock
    /\ currentPhraseIndex s1 = 0
    /\ learningLangCode s1 = Some (learningLangSelect_value (form s))
    /\ phrasesData s1 = phrasesData s
    /\ host s1 = host s
    /\ timerInterval s1 = timerInterval s
    /\ form s1 = form s.
Proof.
  intros Hn Hl Hcustom.
  destruct (GenerateMore.offered_known _ Hn) as [Htn (n & Hfn)].
  destruct (GenerateMore.offered_known _ Hl) as [Htl (l & Hfl)].
  assert (Hr : rejects (form s) = false).
  { unfold rejects. rewrite Htn, Htl.
    destruct (String.eqb_spec (topicSelect_value (form s)) "custom") as [E|_];
      [contradiction|reflexivity]. }
  assert (Hk : known_form (form s) = true).
  { unfold known_form. rewrite Hfn, Hfl. reflexivity. }
  destruct (start_reaches_call s Hr Hk) as (prompt & Hs & Hreq).
  pose proof (start_controls s) as Hc. rewrite Hs in Hc.
  eexists _, prompt. split; [exact Hs|]. split; [exact Hreq|].
  destruct Hc as (Hp & Hh & Ht & Hf & Hlc & Hi & Hb & Ho & Hst).
  auto 12.
Qed.

End RegenerationMore.

(** ** Instances *)

Module RegenerationChecks.
Import GenerationClient Generate Session Await Surface Policy.

Lemma ready_reachable : Schedule.reachable (AwaitSample.ready, []).
Proof.
  exists Sample.en_es, AwaitSample.ready_steps. unfold AwaitSample.ready.
  vm_compute. reflexivity.
Qed.

Lemma ready_start :
  start AwaitSample.ready
  = Awaiting AwaitSample.ready_sent AwaitSample.ready_prompt.
Proof. vm_compute. reflexivity. Qed.

(** Four failures of four kinds, then an answer; five failures, the last
    a text that does not parse. *)
Lemma retry_policy_by_cause_flaky :
  (fst (callGeminiAPI "p" (AwaitSample.net_flaky [Sample.hola]))
   = Returned [Sample.hola]
   /\ attempts (snd (callGeminiAPI "p" (AwaitSample.net_flaky [Sample.hola])))
      = 5%nat
   /\ waits (snd (callGeminiAPI "p" (AwaitSample.net_flaky [Sample.hola])))
      = [1000; 2000; 4000; 8000])
  /\ fst (callGeminiAPI "p" (AwaitSample.net_failing [Sample.hola]))
     = Threw AwaitSample.syntax_error
  /\ waits (snd (callGeminiAPI "p" (AwaitSample.net_failing [Sample.hola])))
     = [1000; 2000; 4000; 8000].
Proof.
  assert (Hfour : forall net,
            net 0%nat = FetchRejects Sample.offline ->
            net 1%nat = AwaitSample.unavailable [Sample.hola] ->
            (exists e, Fails (net 2%nat) e) -> (exists e, Fails (net 3%nat) e) ->
            forall j, (j < 4)%nat -> exists e, Fails (net j) e).
  { intros net H0 H1 H2 H3 j Hj.
    destruct j as [|[|[|[|j]]]]; [| | | |lia].
    - rewrite H0. eexists. constructor.
    - rewrite H1. eexists. unfold AwaitSample.unavailable, Sample.answer.
      constructor.
    - exact H2.
    - exact H3. }
  split.
  - pose proof (PolicyFacts.retry_policy_by_cause "p"
                  (AwaitSample.net_flaky [Sample.hola])) as H.
    cbv zeta in H. destruct H as (_ & _ & _ & _ & _ & _ & H & _).
    destruct (H 4%nat [Sample.hola]) as (Hr & _ & Ha & Hw).
    + lia.
    + apply Hfour; try reflexivity; eexists; constructor.
    + constructor.
    + auto.
  - pose proof (PolicyFacts.retry_policy_by_cause "p"
                  (AwaitSample.net_failing [Sample.hola])) as H.
    cbv zeta in H. destruct H as (_ & _ & _ & _ & _ & _ & _ & H).
    destruct (H AwaitSample.syntax_error) as (Hr & _ & _ & Hw).
    + apply Hfour; try reflexivity; eexists; constructor.
    + constructor.
    + auto.
Defined.

(** The network is down and the learner steps forward while the request
    is pending: the deck is kept, the cursor ends on the second phrase. *)
Lemma failed_request_keeps_phrases_ready :
  outcome_of (settle AwaitSample.ready_prompt Sample.net_down 400000
                AwaitSample.stepped)
  = Failed Sample.offline
  /\ phrasesData (state_of (settle AwaitSample.ready_prompt Sample.net_down
                              400000 AwaitSample.stepped))
     = phrasesData AwaitSample.ready
  /\ currentPhraseIndex (state_of (settle AwaitSample.ready_prompt
                                     Sample.net_down 400000 AwaitSample.stepped))
     = currentPhraseIndex AwaitSample.stepped
  /\ currentPhraseIndex AwaitSample.stepped = 1.
Proof.
  pose proof (RegenerationFacts.failed_request_keeps_phrases
                Sample.net_down 400000 AwaitSample.ready AwaitSample.ready_sent
                [] AwaitSample.ready_prompt AwaitSample.stepped_events
                Sample.offline ready_reachable) as H.
  cbv zeta in H.
  destruct H as (_ & Ho & Hp & _ & _ & _ & Hi & _).
  - vm_compute. reflexivity.
  - exact ready_start.
  - vm_compute. reflexivity.
  - unfold AwaitSample.stepped.
    split; [exact Ho|]. split; [exact Hp|]. split; [exact Hi|].
    vm_compute. reflexivity.
Defined.



(** The answer of one phrase finds the cursor on 1. *)
Lemma navigation_during_request_overtaken :
  outcome_of (resume (Returned [Sample.gracias]) 400000 AwaitSample.stepped)
  = Failed (TypeError "currentPhrase is undefined")
  /\ phrasesData (state_of (resume (Returned [Sample.gracias]) 400000
                              AwaitSample.stepped))
     = [Sample.gracias]
  /\ ~ Deck.invariant AwaitSample.overtaken.
Proof.
  pose proof RegenerationFacts.navigation_during_request_breaks_invariant as H.
  destruct H as (_ & _ & _ & Hlate & _ & _ & _ & _ & _ & Hbroken).
  destruct (Hlate [Sample.gracias] 400000 AwaitSample.stepped) as [Hp Ho].
  - discriminate.
  - assert (Hi : currentPhraseIndex AwaitSample.stepped = 1)
      by (vm_compute; reflexivity).
    rewrite Hi. change (js_length [Sample.gracias]) with 1. lia.
  - auto.
Defined.

(** An answer of two phrases with the cursor on the second is shown. *)
Lemma answer_replaces_deck_stepped :
  outcome_of (resume (Returned [Sample.gracias; Sample.hola]) 400000
                AwaitSample.stepped)
  = Succeeded
  /\ visible (state_of (resume (Returned [Sample.gracias; Sample.hola]) 400000
                          AwaitSample.stepped))
  /\ currentPhraseIndex (state_of (resume (Returned [Sample.gracias; Sample.hola])
                                     400000 AwaitSample.stepped))
     = currentPhraseIndex AwaitSample.stepped.
Proof.
  pose proof (RegenerationMore.answer_replaces_deck_before_display
                [Sample.gracias; Sample.hola] 400000 AwaitSample.stepped) as H.
  cbv zeta in H. destruct H as (_ & Hi & Hiff & Hs & _).
  assert (Ho : outcome_of (resume (Returned [Sample.gracias; Sample.hola]) 400000
                             AwaitSample.stepped) = Succeeded).
  { apply Hiff. right.
    assert (Hc : currentPhraseIndex AwaitSample.stepped = 1)
      by (vm_compute; reflexivity).
    rewrite Hc. split; [change (js_length [Sample.gracias; Sample.hola]) with 2; lia|].
    vm_compute. reflexivity. }
  destruct (Hs Ho) as (_ & Hv & _). auto.
Defined.

Lemma offered_form_reaches_the_call_ready :
  exists s1 prompt,
    start AwaitSample.ready = Awaiting s1 prompt
    /\ request_of AwaitSample.ready = inr prompt
    /\ generateBtn_disabled (page s1) = true
    /\ outputContainer_display (page s1) = DisplayNone
    /\ statusMessage_display (page s1) = DisplayBlock
    /\ currentPhraseIndex s1 = 0
    /\ learningLangCode s1
       = Some (learningLangSelect_value (form AwaitSample.ready))
    /\ phrasesData s1 = phrasesData AwaitSample.ready
    /\ host s1 = host AwaitSample.ready
    /\ timerInterval s1 = timerInterval AwaitSample.ready
    /\ form s1 = form AwaitSample.ready.
Proof.
  apply (RegenerationMore.offered_form_reaches_the_call AwaitSample.ready).
  - vm_compute. auto 20.
  - vm_compute. auto 20.
  - vm_compute. discriminate.
Defined.

End RegenerationChecks.
